(** * Spam Guard: the TF-IDF Naive Bayes classifier of the background script

    A shallow embedding of the class [TfIdfNaiveBayes] (tokenizer, feature
    extraction, training, prediction, snapshot export and import).

    Modelling conventions.
    - JavaScript strings are modelled as [string]; each [ascii] is read as one
      UTF-16 code unit below 256 (Latin-1), so the tokenizer's CJK range is
      never hit and [toLowerCase] / [\s] are written out for Latin-1.
    - A JavaScript [Map] is an association list in insertion order
      ([JSMap]); [set] replaces the value of a present key in place and
      appends a new key at the end, as [Map.prototype.set] does.
    - JavaScript numbers are modelled as exact reals ([R]); counters are [nat]. *)

From Stdlib Require Import String Ascii List Bool Arith Lia Reals Lra Sorting.Sorted Sorting.Permutation.
Import ListNotations.
Open Scope string_scope.
Open Scope list_scope.
Open Scope nat_scope.

(** ** JavaScript [Map] with string keys *)
Module JSMap.

Definition t (V : Type) := list (string * V).

Fixpoint get {V} (k : string) (m : t V) : option V :=
  match m with
  | [] => None
  | (k', v) :: r => if String.eqb k k' then Some v else get k r
  end.

Fixpoint set {V} (k : string) (v : V) (m : t V) : t V :=
  match m with
  | [] => [(k, v)]
  | (k', v') :: r => if String.eqb k k' then (k', v) :: r else (k', v') :: set k v r
  end.

Definition has {V} (k : string) (m : t V) : bool :=
  match get k m with Some _ => true | None => false end.

Definition size {V} (m : t V) : nat := length m.

(** [new Map(entries)] *)
Definition of_entries {V} (l : list (string * V)) : t V :=
  fold_left (fun m kv => set (fst kv) (snd kv) m) l [].

(** [Array.from(m.entries())] *)
Definition entries {V} (m : t V) : list (string * V) := m.

(** [m.get(k) || 0] on a map of counters *)
Definition get0 (k : string) (m : t nat) : nat :=
  match get k m with Some n => n | None => 0 end.

(** Keys pairwise distinct: every map built by [set] has this shape. *)
Fixpoint keys_nodup {V} (m : t V) : bool :=
  match m with
  | [] => true
  | (k, _) :: r => negb (has k r) && keys_nodup r
  end.

End JSMap.

(** ** Characters *)
Definition code (c : ascii) : nat := nat_of_ascii c.

(** [\w] of a JavaScript regular expression (ASCII only) *)
Definition is_word (c : ascii) : bool :=
  let n := code c in
  ((97 <=? n) && (n <=? 122)) || ((65 <=? n) && (n <=? 90))
  || ((48 <=? n) && (n <=? 57)) || (n =? 95).

(** [\s] restricted to Latin-1 *)
Definition is_space (c : ascii) : bool :=
  let n := code c in ((9 <=? n) && (n <=? 13)) || (n =? 32) || (n =? 160).

(** [[\w.-]] *)
Definition is_wdd (c : ascii) : bool :=
  is_word c || Ascii.eqb c "." || Ascii.eqb c "-".

(** [String.prototype.toLowerCase] restricted to Latin-1 *)
Definition lower_char (c : ascii) : ascii :=
  let n := code c in
  if ((65 <=? n) && (n <=? 90)) || ((192 <=? n) && (n <=? 222) && negb (n =? 215))
  then ascii_of_nat (n + 32) else c.

Fixpoint toLowerCase (s : string) : string :=
  match s with
  | EmptyString => EmptyString
  | String c r => String (lower_char c) (toLowerCase r)
  end.

(** Longest prefix whose characters satisfy [p], and the rest. *)
Fixpoint span (p : ascii -> bool) (s : string) : string * string :=
  match s with
  | EmptyString => (EmptyString, EmptyString)
  | String c r =>
      if p c then let (a, b) := span p r in (String c a, b) else (EmptyString, s)
  end.

Definition is_empty (s : string) : bool := String.eqb s "".

(** ** Tokenizer: the five rewriting passes of [tokenize] *)

(** [text.replace(/<[^>]*>/g, ' ')]: the rest after the first [>], if any *)
Fixpoint after_gt (s : string) : option string :=
  match s with
  | EmptyString => None
  | String c r => if Ascii.eqb c ">" then Some r else after_gt r
  end.

Fixpoint strip_tags (fuel : nat) (s : string) : string :=
  match fuel with
  | O => s
  | S f =>
      match s with
      | EmptyString => EmptyString
      | String c r =>
          if Ascii.eqb c "<" then
            match after_gt r with
            | Some rest => String " " (strip_tags f rest)
            | None => String c (strip_tags f r)
            end
          else String c (strip_tags f r)
      end
  end.

(** One match of [/https?:\/\/([^\s\/]+)[^\s]*/] at the head of [s]:
    the captured host and the text after the match. *)
Definition not_space_slash (c : ascii) : bool := negb (is_space c) && negb (Ascii.eqb c "/").

Definition url_after_scheme (s : string) : option (string * string) :=
  let (host, r) := span not_space_slash s in
  if is_empty host then None
  else let (_, rest) := span (fun c => negb (is_space c)) r in Some (host, rest).

Definition match_url (s : string) : option (string * string) :=
  if prefix "https://" s then url_after_scheme (substring 8 (String.length s - 8) s)
  else if prefix "http://" s then url_after_scheme (substring 7 (String.length s - 7) s)
  else None.

Fixpoint replace_urls (fuel : nat) (s : string) : string :=
  match fuel with
  | O => s
  | S f =>
      match s with
      | EmptyString => EmptyString
      | String c r =>
          match match_url s with
          | Some (host, rest) => String.append " " (String.append host (String.append " " (replace_urls f rest)))
          | None => String c (replace_urls f r)
          end
      end
  end.

(** One match of [/[\w.-]+@([\w.-]+)/] at the head of [s]: since [@] is not
    in [[\w.-]], the greedy run must stop right before the [@]. *)
Definition match_email (s : string) : option (string * string) :=
  let (local, r) := span is_wdd s in
  if is_empty local then None
  else match r with
       | String at_ r' =>
           if Ascii.eqb at_ "@" then
             let (dom, rest) := span is_wdd r' in
             if is_empty dom then None else Some (dom, rest)
           else None
       | EmptyString => None
       end.

Fixpoint replace_emails (fuel : nat) (s : string) : string :=
  match fuel with
  | O => s
  | S f =>
      match s with
      | EmptyString => EmptyString
      | String c r =>
          match match_email s with
          | Some (dom, rest) => String.append " " (String.append dom (String.append " " (replace_emails f rest)))
          | None => String c (replace_emails f r)
          end
      end
  end.

(** [text.replace(/[^\w一-鿿@.-]/g, ' ')] *)
Fixpoint keep_chars (s : string) : string :=
  match s with
  | EmptyString => EmptyString
  | String c r =>
      String (if is_wdd c || Ascii.eqb c "@" then c else " ") (keep_chars r)
  end.

(** [text.split(/\s+/)]: the pieces between whitespace runs, with the empty
    leading and trailing pieces JavaScript produces. *)
Fixpoint split_ws_aux (s : string) (cur : string) (in_ws : bool) : list string :=
  match s with
  | EmptyString => [cur]
  | String c r =>
      if is_space c then
        if in_ws then split_ws_aux r cur true else cur :: split_ws_aux r "" true
      else split_ws_aux r (String.append cur (String c "")) false
  end.

Definition split_ws (s : string) : list string := split_ws_aux s "" false.

Definition tokenize (text : string) : list string :=
  if is_empty text then []
  else
    let t := toLowerCase text in
    let t := strip_tags (String.length t) t in
    let t := replace_urls (String.length t) t in
    let t := replace_emails (String.length t) t in
    let t := keep_chars t in
    filter (fun w => 1 <? String.length w) (split_ws t).

(** ** Feature extraction *)
Record EmailData := mkEmail {
  senderName : option string;
  senderEmail : option string;
  subject : option string;
  body : option string
}.

(** JavaScript truthiness of an optional string field *)
Definition truthy (f : option string) : option string :=
  match f with Some s => if is_empty s then None else Some s | None => None end.

(** [senderEmail.match(/@([\w.-]+)/)]: the first capture *)
Fixpoint email_domain (s : string) : option string :=
  match s with
  | EmptyString => None
  | String c r =>
      if Ascii.eqb c "@" then
        let (d, _) := span is_wdd r in
        if is_empty d then email_domain r else Some d
      else email_domain r
  end.

(** [s.split('.').pop()] *)
Fixpoint last_label_aux (s cur : string) : string :=
  match s with
  | EmptyString => cur
  | String c r => if Ascii.eqb c "." then last_label_aux r "" else last_label_aux r (String.append cur (String c ""))
  end.

Definition last_label (s : string) : string := last_label_aux s "".

Definition extractFeatures (emailData : EmailData) : list string :=
  let f0 := [] in
  let f1 := match truthy (senderName emailData) with
            | Some n => f0 ++ map (fun t => String.append "name_" t) (tokenize n)
            | None => f0 end in
  let f2 := match truthy (senderEmail emailData) with
            | Some e =>
                match email_domain e with
                | Some d => f1 ++ [String.append "domain_" (toLowerCase d)] ++ [String.append "tld_" (last_label d)]
                | None => f1
                end
            | None => f1 end in
  let f3 := match truthy (subject emailData) with
            | Some s => let subjectTokens := tokenize s in
                        f2 ++ map (fun t => String.append "subj_" t) subjectTokens ++ subjectTokens
            | None => f2 end in
  let f4 := match truthy (body emailData) with
            | Some b => f3 ++ tokenize b
            | None => f3 end in
  f4.
(** ** Model state *)
Inductive Label := Spam | Ham.

(** A JavaScript object [{ spam: ..., ham: ... }] *)
Record PerClass (A : Type) := mkPC { spam : A; ham : A }.
Arguments mkPC {A}. Arguments spam {A}. Arguments ham {A}.

Definition pc_get {A} (l : Label) (p : PerClass A) : A :=
  match l with Spam => spam p | Ham => ham p end.

Definition pc_upd {A} (l : Label) (f : A -> A) (p : PerClass A) : PerClass A :=
  match l with
  | Spam => mkPC (f (spam p)) (ham p)
  | Ham => mkPC (spam p) (f (ham p))
  end.

Record Model := mkModel {
  vocabulary : JSMap.t nat;
  documentFrequency : JSMap.t nat;
  totalDocuments : nat;
  classDocCount : PerClass nat;
  classWordCounts : PerClass (JSMap.t nat);
  classTotalWords : PerClass nat;
  alpha : R;
  minDf : nat;
  isTrained : bool
}.

(** [new TfIdfNaiveBayes()] *)
Definition fresh : Model := {|
  vocabulary := [];
  documentFrequency := [];
  totalDocuments := 0;
  classDocCount := mkPC 0 0;
  classWordCounts := mkPC [] [];
  classTotalWords := mkPC 0 0;
  alpha := 1%R;
  minDf := 2;
  isTrained := false
|}.

(** [new Set(features)]: distinct elements in first-occurrence order *)
Definition uniqueWords (l : list string) : list string :=
  fold_left (fun acc w => if existsb (String.eqb w) acc then acc else acc ++ [w]) l [].

(** ** Training *)

(** A training item [{label, emailData}] or legacy [{label, text}] *)
Record TrainItem := mkItem {
  label : Label;
  emailData : option EmailData;
  text : option string
}.

(** The features of an item, or [None] when the loop [continue]s. *)
Definition itemFeatures (item : TrainItem) : option (list string) :=
  match emailData item with
  | Some e => Some (extractFeatures e)
  | None =>
      match truthy (text item) with
      | Some t => Some (tokenize t)
      | None => None
      end
  end.

(** The accumulators the loop of [train] updates; [train] resets each of
    them before the loop. *)
Record Accum := mkAccum {
  a_documentFrequency : JSMap.t nat;
  a_classDocCount : PerClass nat;
  a_classWordCounts : PerClass (JSMap.t nat);
  a_classTotalWords : PerClass nat
}.

Definition emptyAccum : Accum := mkAccum [] (mkPC 0 0) (mkPC [] []) (mkPC 0 0).

Definition incr (w : string) (m : JSMap.t nat) : JSMap.t nat :=
  JSMap.set w (JSMap.get0 w m + 1) m.

(** [for (const word of features) { counts.set(...); classTotalWords[label]++ }] *)
Definition countWords (lbl : Label) (features : list string)
    (cwc : PerClass (JSMap.t nat)) (ctw : PerClass nat)
    : PerClass (JSMap.t nat) * PerClass nat :=
  fold_left (fun st word =>
      (pc_upd lbl (incr word) (fst st), pc_upd lbl S (snd st)))
    features (cwc, ctw).

(** One iteration of [for (const item of trainingData)] *)
Definition processItem (a : Accum) (item : TrainItem) : Accum :=
  match itemFeatures item with
  | None => a
  | Some features =>
      let lbl := label item in
      let df := fold_left (fun df word => incr word df)
                  (uniqueWords features) (a_documentFrequency a) in
      let cdc := pc_upd lbl S (a_classDocCount a) in
      let (cwc, ctw) := countWords lbl features (a_classWordCounts a) (a_classTotalWords a) in
      mkAccum df cdc cwc ctw
  end.

(** [for (const [word, df] of this.documentFrequency) if (df >= this.minDf) ...] *)
Definition buildVocabulary (minDf0 : nat) (df : JSMap.t nat) : JSMap.t nat :=
  fst (fold_left (fun st e =>
          if minDf0 <=? snd e then (JSMap.set (fst e) (snd st) (fst st), S (snd st))
          else st)
        df ([], 0)).

Definition train (m : Model) (trainingData : list TrainItem) : Model :=
  if length trainingData =? 0 then
    (* reset, [totalDocuments = 0], early [return]: [isTrained] untouched *)
    {| vocabulary := []; documentFrequency := []; totalDocuments := 0;
       classDocCount := mkPC 0 0; classWordCounts := mkPC [] [];
       classTotalWords := mkPC 0 0;
       alpha := alpha m; minDf := minDf m; isTrained := isTrained m |}
  else
    let a := fold_left processItem trainingData emptyAccum in
    {| vocabulary := buildVocabulary (minDf m) (a_documentFrequency a);
       documentFrequency := a_documentFrequency a;
       totalDocuments := length trainingData;
       classDocCount := a_classDocCount a;
       classWordCounts := a_classWordCounts a;
       classTotalWords := a_classTotalWords a;
       alpha := alpha m; minDf := minDf m; isTrained := true |}.

(** ** TF-IDF *)
Local Open Scope R_scope.

(** The raw counts of [termFrequency], before the division *)
Definition rawCounts (words : list string) : JSMap.t nat :=
  fold_left (fun tf w => incr w tf) words [].

Definition termFrequency (words : list string) : JSMap.t R :=
  let docLength := match length words with O => 1%nat | n => n end in
  map (fun e => (fst e, INR (snd e) / INR docLength)) (rawCounts words).

Definition idf (m : Model) (word : string) : R :=
  let df := JSMap.get0 word (documentFrequency m) in
  if (df =? 0)%nat then 0
  else ln ((INR (totalDocuments m) + 1) / (INR df + 1)) + 1.

Definition tfidfFromFeatures (m : Model) (features : list string) : JSMap.t R :=
  map (fun e => (fst e, snd e * idf m (fst e))) (termFrequency features).

(** ** Prediction *)
Record Prediction := mkPrediction {
  p_label : string;
  probability : R;
  scores : list (string * R)
}.

Definition unknownResult : Prediction := mkPrediction "unknown" 0 [].

Inductive Input := InText (s : string) | InEmail (e : EmailData).

Definition inputFeatures (x : Input) : list string :=
  match x with InText s => tokenize s | InEmail e => extractFeatures e end.

(** [logProbs[label]]: log prior plus the weighted log word probabilities
    of the in-vocabulary entries of the TF-IDF vector. *)
Definition logProb (m : Model) (lbl : Label) (tfidfVec : JSMap.t R) : R :=
  let vocabSize := match JSMap.size (vocabulary m) with O => 1%nat | n => n end in
  let priorProb := (INR (pc_get lbl (classDocCount m)) + alpha m) /
                   (INR (totalDocuments m) + 2 * alpha m) in
  let wordCounts := pc_get lbl (classWordCounts m) in
  let totalWords := pc_get lbl (classTotalWords m) in
  fold_left (fun lp e =>
      if negb (JSMap.has (fst e) (vocabulary m)) then lp
      else
        let wordCount := JSMap.get0 (fst e) wordCounts in
        let wordProb := (INR wordCount + alpha m) / (INR totalWords + alpha m * INR vocabSize) in
        lp + ln wordProb * snd e)
    tfidfVec (ln priorProb).

(** Steps after the TF-IDF vector: log-domain shift and normalisation. *)
Definition classify (m : Model) (tfidfVec : JSMap.t R) : Prediction :=
  let ls := logProb m Spam tfidfVec in
  let lh := logProb m Ham tfidfVec in
  let maxLogProb := Rmax ls lh in
  let expSpam := exp (ls - maxLogProb) in
  let expHam := exp (lh - maxLogProb) in
  let sumExp := expSpam + expHam in
  let probabilities := [("spam", expSpam / sumExp); ("ham", expHam / sumExp)] in
  let predictedLabel := if Rlt_dec (expHam / sumExp) (expSpam / sumExp) then "spam" else "ham" in
  mkPrediction predictedLabel
    (match JSMap.get predictedLabel probabilities with Some p => p | None => 0 end)
    probabilities.

Definition predict (m : Model) (x : Input) : Prediction :=
  if negb (isTrained m) then unknownResult
  else classify m (tfidfFromFeatures m (inputFeatures x)).

(** [predict] after feature extraction, on a feature sequence *)
Definition predictFeatures (m : Model) (features : list string) : Prediction :=
  if negb (isTrained m) then unknownResult
  else classify m (tfidfFromFeatures m features).

(** ** Snapshots *)

(** The plain object [serialize] returns; a field [deserialize] may find
    missing is an [option]. *)
Record Snapshot := mkSnapshot {
  s_vocabulary : option (list (string * nat));
  s_documentFrequency : option (list (string * nat));
  s_totalDocuments : option nat;
  s_classDocCount : option (PerClass nat);
  s_classWordCounts : option (PerClass (option (list (string * nat))));
  s_classTotalWords : option (PerClass nat);
  s_isTrained : option bool
}.

Definition serialize (m : Model) : Snapshot := {|
  s_vocabulary := Some (JSMap.entries (vocabulary m));
  s_documentFrequency := Some (JSMap.entries (documentFrequency m));
  s_totalDocuments := Some (totalDocuments m);
  s_classDocCount := Some (classDocCount m);
  s_classWordCounts := Some (mkPC (Some (JSMap.entries (spam (classWordCounts m))))
                                  (Some (JSMap.entries (ham (classWordCounts m)))));
  s_classTotalWords := Some (classTotalWords m);
  s_isTrained := Some (isTrained m)
|}.

Definition or_default {A} (o : option A) (d : A) : A :=
  match o with Some v => v | None => d end.

Definition deserialize (m : Model) (data : option Snapshot) : Model :=
  match data with
  | None => m
  | Some d =>
      {| vocabulary := JSMap.of_entries (or_default (s_vocabulary d) []);
         documentFrequency := JSMap.of_entries (or_default (s_documentFrequency d) []);
         totalDocuments := or_default (s_totalDocuments d) 0%nat;
         classDocCount := or_default (s_classDocCount d) (mkPC 0%nat 0%nat);
         classWordCounts :=
           mkPC (JSMap.of_entries (match s_classWordCounts d with
                                   | Some p => or_default (spam p) [] | None => [] end))
                (JSMap.of_entries (match s_classWordCounts d with
                                   | Some p => or_default (ham p) [] | None => [] end));
         classTotalWords := or_default (s_classTotalWords d) (mkPC 0%nat 0%nat);
         alpha := alpha m; minDf := minDf m;
         isTrained := or_default (s_isTrained d) false |}
  end.

Local Close Scope R_scope.

(** ** Helper definitions for the statements *)

(** The tokens of an optional field; a missing field has none. *)
Definition fieldTokens (f : option string) : list string :=
  match f with Some s => tokenize s | None => [] end.

(** The score the result map gives a class name *)
Definition scoreOf (name : string) (r : Prediction) : option R :=
  JSMap.get name (scores r).

(** Whether a training item's features contain [w] (a skipped item has none) *)
Definition containsFeature (w : string) (item : TrainItem) : bool :=
  match itemFeatures item with
  | Some fs => existsb (String.eqb w) fs
  | None => false
  end.

(** The number of training items whose features contain [w] *)
Definition docsContaining (w : string) (c : list TrainItem) : nat :=
  length (filter (containsFeature w) c).

(** Occurrences of [w] in a list of strings *)
Definition occurrences (w : string) (l : list string) : nat :=
  length (filter (String.eqb w) l).

(** The TF-IDF vector with the entry of [w] skipped *)
Definition skipEntry (w : string) (v : JSMap.t R) : JSMap.t R :=
  filter (fun e => negb (String.eqb (fst e) w)) v.

(** The maps of a model have distinct keys; [fresh], [train] and
    [deserialize] only produce such models. *)
Definition wf_model (m : Model) : bool :=
  JSMap.keys_nodup (vocabulary m) && JSMap.keys_nodup (documentFrequency m)
  && JSMap.keys_nodup (spam (classWordCounts m)) && JSMap.keys_nodup (ham (classWordCounts m)).

(** The same model with another smoothing constant and minimum document frequency *)
Definition withConfig (m : Model) (a : R) (k : nat) : Model :=
  {| vocabulary := vocabulary m; documentFrequency := documentFrequency m;
     totalDocuments := totalDocuments m; classDocCount := classDocCount m;
     classWordCounts := classWordCounts m; classTotalWords := classTotalWords m;
     alpha := a; minDf := k; isTrained := isTrained m |}.

(** The TF-IDF vector of [termFrequency] and [idf] with the term
    frequencies divided by a given length instead of the instance's own *)
Definition tfidfWithLength (m : Model) (features : list string) (docLength : nat) : JSMap.t R :=
  map (fun e => (fst e, (INR (snd e) / INR docLength * idf m (fst e))%R)) (rawCounts features).

(** ** Sample corpora *)

Definition textItem (l : Label) (t : string) : TrainItem := mkItem l None (Some t).

(** The corpus of the spec's scenario A *)
Definition corpusA : list TrainItem :=
  [mkItem Spam (Some (mkEmail None None (Some "Win a free prize now") (Some "prize prize click"))) None;
   mkItem Ham (Some (mkEmail None None (Some "Meeting notes") (Some "meeting notes attached"))) None].

Definition corpusTie : list TrainItem := [textItem Spam "aa"; textItem Ham "aa"].

Definition corpusOov : list TrainItem := [textItem Spam "aa"; textItem Ham "aa bb"].

Definition corpusOne : list TrainItem := [textItem Spam "aa"].

(** A model whose smoothing constant was set to 2 before training *)
Definition modelAlpha2 : Model :=
  train {| vocabulary := []; documentFrequency := []; totalDocuments := 0;
           classDocCount := mkPC 0 0; classWordCounts := mkPC [] [];
           classTotalWords := mkPC 0 0; alpha := 2%R; minDf := 2;
           isTrained := false |} corpusOne.

Definition modelOov : Model := train fresh corpusOov.

(** ** The background script and further parts of the classifier *)

Definition label_eqb (a b : Label) : bool :=
  match a, b with Spam, Spam | Ham, Ham => true | _, _ => false end.

Definition mapTotal (m : JSMap.t nat) : nat := list_sum (map snd m).

Definition classFeatures (lbl : Label) (c : list TrainItem) : list string :=
  concat (map (fun i => if label_eqb (label i) lbl
                        then match itemFeatures i with Some fs => fs | None => [] end
                        else []) c).

Definition hasFeatures (i : TrainItem) : bool :=
  match itemFeatures i with Some _ => true | None => false end.

Definition positive_counts (m : JSMap.t nat) : bool := forallb (fun e => 1 <=? snd e) m.

Definition sumR (l : list R) : R := fold_right Rplus 0%R l.

(** The state of the background script the training handlers touch: the
    [trainingData] array, the [classifier] instance and the
    [classifierModel] entry of [browser.storage.local]. *)
Record BgState := mkBg {
  trainingData : list TrainItem;
  classifier : Model;
  storedModel : option Snapshot
}.

(** [saveClassifierModel] *)
Definition saveClassifierModel (st : BgState) : BgState :=
  mkBg (trainingData st) (classifier st) (Some (serialize (classifier st))).

(** [classifier.train(trainingData)] *)
Definition trainClassifier (st : BgState) : BgState :=
  mkBg (trainingData st) (train (classifier st) (trainingData st)) (storedModel st).

(** The fields of an [addTrainingData] message *)
Record TrainingMessage := mkTrainingMessage {
  tm_label : Label;
  tm_senderName : option string;
  tm_senderEmail : option string;
  tm_subject : option string;
  tm_body : option string;
  tm_text : option string
}.

(** [x || ""] on an optional string *)
Definition or_empty (f : option string) : string :=
  match truthy f with Some s => s | None => "" end.

Definition newSample (msg : TrainingMessage) : TrainItem :=
  mkItem (tm_label msg)
    (Some (mkEmail (Some (or_empty (tm_senderName msg))) (Some (or_empty (tm_senderEmail msg)))
                   (Some (or_empty (tm_subject msg)))
                   (Some (match truthy (tm_body msg) with Some b => b | None => or_empty (tm_text msg) end))))
    None.

(** [case "addTrainingData"] *)
Definition addTrainingData (st : BgState) (msg : TrainingMessage) : BgState :=
  let st := mkBg (trainingData st ++ [newSample msg]) (classifier st) (storedModel st) in
  saveClassifierModel (trainClassifier st).

(** [case "retrainClassifier"]: [message.trainingData] when present (an
    array, even an empty one, is truthy) *)
Definition retrainClassifier (st : BgState) (data : option (list TrainItem)) : BgState :=
  let st := match data with
            | Some d => mkBg d (classifier st) (storedModel st)
            | None => st end in
  saveClassifierModel (trainClassifier st).

(** The model branch of [initialize]: a stored model whose [isTrained] is
    truthy is loaded into a new instance; otherwise ([None]) the script
    trains from the mailbox folders. *)
Definition loadStoredModel (stored : option Snapshot) : option Model :=
  match stored with
  | Some d => if or_default (s_isTrained d) false then Some (deserialize fresh (Some d)) else None
  | None => None
  end.

(** [getTopFeatures]: [Array.prototype.sort] is stable (ES2019) and the
    comparator [(a, b) => b[1] - a[1]] orders by decreasing score, so the
    sorted array is the one insertion sort produces when each element is put
    before the first element with a score not above its own. *)
Local Open Scope R_scope.
Fixpoint insertByScore (x : string * R) (l : list (string * R)) : list (string * R) :=
  match l with
  | [] => [x]
  | y :: r => if Rle_dec (snd y) (snd x) then x :: y :: r else y :: insertByScore x r
  end.
Local Close Scope R_scope.

Definition sortByScore (l : list (string * R)) : list (string * R) :=
  fold_right insertByScore [] l.

(** The entries [getTopFeatures] keeps, before the scores are formatted *)
Definition rankedFeatures (m : Model) (x : Input) (n : nat) : list (string * R) :=
  firstn n (sortByScore (filter (fun e => JSMap.has (fst e) (vocabulary m))
                                (tfidfFromFeatures m (inputFeatures x)))).

(** [{ word, score: score.toFixed(4) }]; the number formatting
    [Number.prototype.toFixed(4)] is the parameter [toFixed4]. *)
Record TopFeature := mkTopFeature { word : string; score : string }.

Definition getTopFeatures (toFixed4 : R -> string) (m : Model) (x : Input) (n : nat) : list TopFeature :=
  map (fun e => mkTopFeature (fst e) (toFixed4 (snd e))) (rankedFeatures m x n).

(** The order [getTopFeatures] sorts by: decreasing score *)
Definition geScore (a b : string * R) : Prop := (snd b <= snd a)%R.

(** [String.prototype.toUpperCase] on a Latin-1 string, as UTF-16 code
    units: [µ] and [ÿ] leave Latin-1 and [ß] becomes [SS]. *)
Definition upper_units (c : ascii) : list nat :=
  let n := code c in
  if (97 <=? n) && (n <=? 122) then [n - 32]
  else if n =? 181 then [924]
  else if n =? 223 then [83; 83]
  else if (224 <=? n) && (n <=? 254) && negb (n =? 247) then [n - 32]
  else if n =? 255 then [376]
  else [n].

Definition toUpperCase (s : string) : list nat :=
  flat_map upper_units (list_ascii_of_string s).

Fixpoint starts_with (p l : list nat) : bool :=
  match p, l with
  | [], _ => true
  | x :: p', y :: l' => (x =? y) && starts_with p' l'
  | _ :: _, [] => false
  end.

(** [haystack.includes(needle)] on code units *)
Fixpoint includes (h n : list nat) : bool :=
  starts_with n h || match h with [] => false | _ :: h' => includes h' n end.

(** [SPAM_HEADERS] *)
Definition SPAM_HEADERS : list (string * string) :=
  [("x-spam-status", "Yes"); ("x-spam-flag", "YES"); ("x-hines-imss-spam", "SPAM")].

(** The [headers] object of [browser.messages.getFull]: header name to the
    array of its values. *)
Definition Headers := JSMap.t (list string).

Definition hasSpamHeader (headers : Headers) : bool :=
  existsb (fun check =>
      match JSMap.get (fst check) headers with
      | Some headerValue =>
          existsb (fun value => includes (toUpperCase value) (toUpperCase (snd check))) headerValue
      | None => false
      end)
    SPAM_HEADERS.

(** Line terminators [.] does not match (Latin-1 part) *)
Definition is_line_terminator (c : ascii) : bool := (code c =? 10) || (code c =? 13).

(** [\s*<([^>]+)>$] at the head of [r]: the captured address. [\s*] can only
    be followed by [<] after the whole whitespace run, and [[^>]+] by [>]
    after the whole run of other characters, so backtracking never helps. *)
Definition angle_tail (r : string) : option string :=
  match snd (span is_space r) with
  | String lt r2 =>
      if Ascii.eqb lt "<" then
        let (x, r3) := span (fun c => negb (Ascii.eqb c ">")) r2 in
        if is_empty x then None else if String.eqb r3 ">" then Some x else None
      else None
  | EmptyString => None
  end.

(** [^(.+?)]: the lazy group grows one character at a time, and a line
    terminator ends every attempt. *)
Fixpoint lazy_split (pre s : string) : option (string * string) :=
  match s with
  | EmptyString => None
  | String c r =>
      if is_line_terminator c then None
      else
        let pre' := String.append pre (String c "") in
        match angle_tail r with
        | Some e => Some (pre', e)
        | None => lazy_split pre' r
        end
  end.

(** [author.match(/^(.+?)\s*<([^>]+)>$/)]: the two groups *)
Definition match_sender (s : string) : option (string * string) := lazy_split "" s.

Fixpoint drop_while (p : ascii -> bool) (l : list ascii) : list ascii :=
  match l with [] => [] | c :: r => if p c then drop_while p r else l end.

(** [String.prototype.trim] (JavaScript's whitespace and line terminators
    are [\s]) *)
Definition trim (s : string) : string :=
  string_of_list_ascii
    (rev (drop_while is_space (rev (drop_while is_space (list_ascii_of_string s))))).

Record Sender := mkSender { name : string; email : string }.

Definition parseSender (author : option string) : Sender :=
  match truthy author with
  | None => mkSender "" ""
  | Some a =>
      match match_sender a with
      | Some (n, e) => mkSender (trim n) (trim e)
      | None =>
          if existsb (fun c => Ascii.eqb c "@") (list_ascii_of_string a)
          then mkSender "" (trim a)
          else mkSender (trim a) ""
      end
  end.

(** The settings [checkAndMoveMessage] reads *)
Record Settings := mkSettings {
  enabled : bool;
  autoScan : bool;
  useMLClassifier : bool;
  mlThreshold : R;
  autoMoveThreshold : option R
}.

(** [stats] *)
Record Stats := mkStats { scannedCount : nat; movedCount : nat }.

(** The fields of a message header [checkAndMoveMessage] reads *)
Record Message := mkMessage {
  author : option string;
  msgSubject : option string;
  folderPath : string
}.

(** What the awaited calls return for this message: [getMessageHeaders],
    [getMessageBodyText], the path of [findSpamFolder]'s folder ([None] for
    [null]) and whether [browser.messages.move] resolves. *)
Record MessageEnv := mkEnv {
  headers : Headers;
  bodyText : string;
  spamFolderPath : option string;
  moveResolves : bool
}.

(** The returned objects: [{isSpam: false}], the header verdict
    [{isSpam: true, method: "header", probability: 1.0, topKeywords: []}] and
    the model verdict [{isSpam: true, method: "ml", probability, topKeywords}]. *)
Inductive CheckResult :=
  | NotSpam
  | HeaderSpam
  | MLSpam (probability : R) (topKeywords : list TopFeature).

Definition Rle_bool (x y : R) : bool := if Rle_dec x y then true else false.

(** [x || d] on a number: [0] and a missing value are falsy *)
Definition or_num (o : option R) (d : R) : R :=
  match o with Some v => if Req_EM_T v 0 then d else v | None => d end.

(** The [emailData] object built from the message *)
Definition messageEmailData (msg : Message) (body : string) : EmailData :=
  let sender := parseSender (author msg) in
  mkEmail (Some (name sender)) (Some (email sender)) (Some (or_empty (msgSubject msg))) (Some body).

(** The move block: [None] when [browser.messages.move] rejects, which the
    [catch] of [checkAndMoveMessage] turns into [{isSpam: false}]. *)
Definition moveToSpam (env : MessageEnv) (msg : Message) (st : Stats) : option Stats :=
  match spamFolderPath env with
  | Some p =>
      if negb (String.eqb (folderPath msg) p) then
        if moveResolves env then Some (mkStats (scannedCount st) (S (movedCount st))) else None
      else Some st
  | None => Some st
  end.

Definition checkAndMoveMessage (toFixed4 : R -> string) (settings : Settings) (classifier : Model)
    (stats : Stats) (env : MessageEnv) (msg : Message) (collectOnly : bool) : CheckResult * Stats :=
  if negb (enabled settings) then (NotSpam, stats)
  else
    let stats := mkStats (S (scannedCount stats)) (movedCount stats) in
    if hasSpamHeader (headers env) then
      if collectOnly then (HeaderSpam, stats)
      else match moveToSpam env msg stats with
           | Some st => (HeaderSpam, st)
           | None => (NotSpam, stats)
           end
    else if useMLClassifier settings && isTrained classifier then
      let emailData := messageEmailData msg (bodyText env) in
      let prediction := predict classifier (InEmail emailData) in
      match scoreOf "spam" prediction with
      | Some ps =>
          if String.eqb (p_label prediction) "spam" && Rle_bool (mlThreshold settings) ps then
            let topKeywords := getTopFeatures toFixed4 classifier (InEmail emailData) 5 in
            let autoMoveThreshold := or_num (autoMoveThreshold settings) (99 / 100) in
            if negb collectOnly && autoScan settings && Rle_bool autoMoveThreshold ps then
              match moveToSpam env msg stats with
              | Some st => (MLSpam ps topKeywords, st)
              | None => (NotSpam, stats)
              end
            else (MLSpam ps topKeywords, stats)
          else (NotSpam, stats)
      | None => (NotSpam, stats)
      end
    else (NotSpam, stats).

#[local] Set Warnings "-register-all".
(** A [MailFolder]: [subFolders] may be missing *)
Inductive Folder := mkFolder {
  folderName : string;
  path : string;
  type : string;
  subFolders : option (list Folder)
}.

(** [if (folder.subFolders) count += countFoldersRecursive(folder.subFolders)]:
    the count a folder adds for its subfolders, by recursion on the folder. *)
Fixpoint subFolderCount (folder : Folder) : nat :=
  match folder with
  | mkFolder _ _ _ (Some folders) =>
      length folders +
      (fix loop (l : list Folder) : nat :=
         match l with [] => 0 | f :: r => subFolderCount f + loop r end) folders
  | mkFolder _ _ _ None => 0
  end.

(** [countFoldersRecursive(folders)]: [folders.length] plus the counts of the
    subfolders *)
Definition countFoldersRecursive (folders : list Folder) : nat :=
  length folders + fold_right (fun f n => subFolderCount f + n) 0 folders.

Definition includesStr (l : list string) (s : string) : bool := existsb (String.eqb s) l.

Fixpoint countFolders (folders : list Folder) (skipTypes : list string) : nat :=
  match folders with
  | [] => 0
  | folder :: r =>
      (if negb (includesStr skipTypes (type folder)) then
         1 + subFolderCount folder
       else 0) + countFolders r skipTypes
  end.

(** The folders [scanFolderWithML(folder, true, ...)] lists messages of, in order *)
Fixpoint scanVisits (folder : Folder) : list Folder :=
  folder :: match folder with
            | mkFolder _ _ _ (Some subs) => concat (map scanVisits subs)
            | mkFolder _ _ _ None => []
            end.

Record Account := mkAccount { accountName : string; folders : list Folder }.

(** [const skipTypes] of [scanAllAccountsWithML] *)
Definition skipTypes : list string := ["junk"; "trash"; "sent"; "drafts"; "outbox"].

(** [scanProgress.totalFolders] after the counting loop *)
Definition totalFolders (accounts : list Account) : nat :=
  fold_left (fun n account => n + countFolders (folders account) skipTypes) accounts 0.

(** [scanProgress.currentFolderIndex] after the scanning loop *)
Definition currentFolderIndex (accounts : list Account) : nat :=
  fold_left (fun n account =>
      fold_left (fun n folder => if negb (includesStr skipTypes (type folder)) then S n else n)
        (folders account) n)
    accounts 0.

(** The folders the scanning loop lists messages of, in order *)
Definition scannedFolders (accounts : list Account) : list Folder :=
  concat (map (fun account =>
      concat (map scanVisits (filter (fun folder => negb (includesStr skipTypes (type folder)))
                                     (folders account))))
    accounts).

(** An entry of [getAllFolders] *)
Record FolderEntry := mkEntry {
  entryName : string;
  entryPath : string;
  entryAccount : string;
  entryType : string;
  depth : nat;
  displayName : string
}.

(** [" ".repeat(n)] for a string *)
Fixpoint repeatStr (s : string) (n : nat) : string :=
  match n with O => "" | S k => String.append s (repeatStr s k) end.

(** The entries [addFolders] pushes for one folder and its subfolders *)
Fixpoint folderEntries (folder : Folder) (accountName : string) (depth : nat) : list FolderEntry :=
  mkEntry (folderName folder) (path folder) accountName (type folder) depth
          (String.append (repeatStr "  " depth) (folderName folder))
  :: match folder with
     | mkFolder _ _ _ (Some subs) =>
         if 0 <? length subs then
           (fix loop (l : list Folder) : list FolderEntry :=
              match l with [] => [] | f :: r => folderEntries f accountName (S depth) ++ loop r end) subs
         else []
     | mkFolder _ _ _ None => []
     end.

Definition addFolders (folderList : list Folder) (accountName : string) (depth : nat) : list FolderEntry :=
  concat (map (fun folder => folderEntries folder accountName depth) folderList).

Definition getAllFolders (accounts : list Account) : list FolderEntry :=
  concat (map (fun account => addFolders (folders account) (accountName account) 0) accounts).

(** The sample [collectTrainingDataFromFolder] pushes for a message;
    [bodyOf] is what [getMessageBodyText] resolves to (it catches its own
    errors). *)
Definition sampleOf (bodyOf : Message -> string) (label : Label) (message : Message) : TrainItem :=
  mkItem label (Some (messageEmailData message (bodyOf message))) None.

(** The [for] loop over [page.messages], with its [break]: the samples
    pushed and the new [count]. *)
Fixpoint collectPage (bodyOf : Message -> string) (label : Label) (messages : list Message)
    (count maxSamples : nat) : list TrainItem * nat :=
  match messages with
  | [] => ([], count)
  | message :: r =>
      if maxSamples <=? count then ([], count)
      else let (s, c) := collectPage bodyOf label r (S count) maxSamples in
           (sampleOf bodyOf label message :: s, c)
  end.

(** The [while] loop over the pages [browser.messages.list] and
    [continueList] return: a page has an [id] when another page follows. *)
Fixpoint collectPages (bodyOf : Message -> string) (label : Label) (pages : list (list Message))
    (count maxSamples : nat) : list TrainItem :=
  match pages with
  | [] => []
  | page :: rest =>
      if count <? maxSamples then
        let (s, c) := collectPage bodyOf label page count maxSamples in
        s ++ match rest with
             | [] => []
             | _ :: _ => if c <? maxSamples then collectPages bodyOf label rest c maxSamples else []
             end
      else []
  end.

(** [pagesOf folder] lists the pages of the folder's messages. *)
Definition collectTrainingDataFromFolder (bodyOf : Message -> string)
    (pagesOf : Folder -> list (list Message)) (folder : Folder) (label : Label)
    (maxSamples : nat) : list TrainItem :=
  collectPages bodyOf label (pagesOf folder) 0 maxSamples.

(** [Math.ceil(a / b)] for [b >= 1] *)
Definition ceil_div (a b : nat) : nat := (a + b - 1) / b.

(** The loops of steps 1 and 2 of [trainFromMailboxFolders] *)
Fixpoint collectFromFolders (bodyOf : Message -> string) (pagesOf : Folder -> list (list Message))
    (label : Label) (folders : list Folder) (perFolder target : nat) (acc : list TrainItem) : list TrainItem :=
  match folders with
  | [] => acc
  | folder :: r =>
      if target <=? length acc then acc
      else collectFromFolders bodyOf pagesOf label r perFolder target
             (acc ++ collectTrainingDataFromFolder bodyOf pagesOf folder label
                       (Nat.min perFolder (target - length acc)))
  end.

(** [settings.maxTrainingSamples || 500] *)
Definition maxPerClassOf (maxTrainingSamples : nat) : nat :=
  if maxTrainingSamples =? 0 then 500 else maxTrainingSamples.

(** [spamSamples] and [hamSamples] of [trainFromMailboxFolders], from the
    folders [findSpamFolders] and [findInboxFolders] return *)
Definition collectSamples (bodyOf : Message -> string) (pagesOf : Folder -> list (list Message))
    (maxTrainingSamples : nat) (spamFolders inboxFolders : list Folder) : list TrainItem * list TrainItem :=
  let maxPerClass := maxPerClassOf maxTrainingSamples in
  let spamPerFolder := ceil_div maxPerClass (Nat.max (length spamFolders) 1) in
  let spamSamples := collectFromFolders bodyOf pagesOf Spam spamFolders spamPerFolder maxPerClass [] in
  let targetHamCount := length spamSamples in
  let hamPerFolder := ceil_div targetHamCount (Nat.max (length inboxFolders) 1) in
  let hamSamples := collectFromFolders bodyOf pagesOf Ham inboxFolders hamPerFolder targetHamCount [] in
  (spamSamples, hamSamples).

(** [haystack.includes(needle)] on strings *)
Definition strIncludes (haystack needle : string) : bool :=
  includes (map code (list_ascii_of_string haystack)) (map code (list_ascii_of_string needle)).

(** The folder test of [searchFolders] in [findSpamFolder] and
    [findSpamFolders]. The Chinese names of [spamNames] have code units
    above 255: they never equal, nor occur in, a Latin-1 name, and are left
    out of the lists below. *)
Definition isSpamFolder (spamNames : list string) (folder : Folder) : bool :=
  String.eqb (type folder) "junk" ||
  existsb (fun name => String.eqb (toLowerCase (folderName folder)) name
                       || strIncludes (toLowerCase (path folder)) name) spamNames.

(** [searchFolders] of [findSpamFolder] on one folder: the folder itself,
    else the first match below it *)
Fixpoint searchFolder (spamNames : list string) (folder : Folder) : option Folder :=
  if isSpamFolder spamNames folder then Some folder
  else match folder with
       | mkFolder _ _ _ (Some subs) =>
           if 0 <? length subs then
             (fix loop (l : list Folder) : option Folder :=
                match l with
                | [] => None
                | f :: r => match searchFolder spamNames f with Some found => Some found | None => loop r end
                end) subs
           else None
       | mkFolder _ _ _ None => None
       end.

Fixpoint searchFolders (spamNames : list string) (folders : list Folder) : option Folder :=
  match folders with
  | [] => None
  | folder :: r => match searchFolder spamNames folder with
                   | Some found => Some found
                   | None => searchFolders spamNames r
                   end
  end.

(** [findSpamFolder]: [configured] is the folder [browser.folders.get]
    resolves to for [settings.targetFolderId] ([None] when there is no id,
    the call rejects or the folder is falsy); [account] the folders of
    [browser.accounts.get] ([None] for a missing account). *)
Definition findSpamFolder (targetFolderPath : string) (configured : option Folder)
    (account : option (list Folder)) : option Folder :=
  match configured with
  | Some folder => Some folder
  | None =>
      match account with
      | None => None
      | Some folders => searchFolders ["spam"; "junk"; toLowerCase targetFolderPath] folders
      end
  end.

(** [searchFolders] of [findSpamFolders] on one folder: every match, in
    the order they are pushed *)
Fixpoint collectSpamFolders (spamNames : list string) (folder : Folder) : list Folder :=
  (if isSpamFolder spamNames folder then [folder] else [])
  ++ match folder with
     | mkFolder _ _ _ (Some subs) =>
         if 0 <? length subs then
           (fix loop (l : list Folder) : list Folder :=
              match l with [] => [] | f :: r => collectSpamFolders spamNames f ++ loop r end) subs
         else []
     | mkFolder _ _ _ None => []
     end.

(** [findSpamFolders], without the [accountId] each entry is tagged with *)
Definition findSpamFolders (accounts : list Account) : list Folder :=
  concat (map (fun account =>
      concat (map (collectSpamFolders ["spam"; "junk"; "bulk"]) (folders account))) accounts).

(** ** Sample background-script inputs *)

Definition sampleMessage : TrainingMessage :=
  mkTrainingMessage Spam (Some "Promo") (Some "promo@example.com") (Some "Win a prize") (Some "click now") None.

Definition sampleSettings : Settings := mkSettings true true true (1/2)%R None.
Definition junkEnv (resolves : bool) : MessageEnv :=
  mkEnv [("x-spam-flag", ["YES"])] "" (Some "Junk") resolves.
Definition inboxMessage : Message := mkMessage (Some "Jane <jane@example.org>") (Some "Hi") "Inbox".

Definition cleanEnv : MessageEnv := mkEnv [("x-spam-status", ["No"])] "meeting notes" (Some "Junk") true.

(** * Lemmas *)

Lemma tokenize_falsy (s : string) : is_empty s = true -> tokenize s = [].
Proof. intros H. unfold tokenize. rewrite H. reflexivity. Qed.

Lemma truthy_tokens (f : option string) :
  match truthy f with Some s => tokenize s | None => [] end = fieldTokens f.
Proof.
  destruct f as [s|]; simpl; [|reflexivity].
  destruct (is_empty s) eqn:E; [symmetry; apply tokenize_falsy|]; auto.
Qed.

(** ** Maps *)
Module JSMapFacts.
Import JSMap.

Lemma get_set {V} (k k' : string) (v : V) (m : t V) :
  get k (set k' v m) = if String.eqb k k' then Some v else get k m.
Proof.
  induction m as [|[k0 v0] r IH]; simpl.
  - reflexivity.
  - destruct (String.eqb_spec k' k0) as [->|Hne]; simpl.
    + destruct (String.eqb k k0); reflexivity.
    + rewrite IH. destruct (String.eqb_spec k k') as [->|]; [|reflexivity].
      apply String.eqb_neq in Hne. rewrite Hne. reflexivity.
Qed.

Lemma has_set {V} (k k' : string) (v : V) (m : t V) :
  has k (set k' v m) = String.eqb k k' || has k m.
Proof. unfold has. rewrite get_set. destruct (String.eqb k k'); reflexivity. Qed.

Lemma get0_incr (w k : string) (m : t nat) :
  get0 w (set k (get0 k m + 1) m) = if String.eqb w k then get0 w m + 1 else get0 w m.
Proof.
  unfold get0 at 1. rewrite get_set.
  destruct (String.eqb_spec w k) as [->|]; reflexivity.
Qed.

Lemma keys_nodup_set {V} (k : string) (v : V) (m : t V) :
  keys_nodup m = true -> keys_nodup (set k v m) = true.
Proof.
  induction m as [|[k0 v0] r IH]; simpl; [reflexivity|].
  intros H. apply andb_prop in H as [H1 H2].
  destruct (String.eqb_spec k k0) as [->|Hne]; simpl.
  - rewrite H1, H2. reflexivity.
  - rewrite has_set, IH by exact H2.
    apply String.eqb_neq in Hne. rewrite String.eqb_sym, Hne. simpl. rewrite H1. reflexivity.
Qed.

Lemma has_app {V} (k : string) (a b : t V) : has k (a ++ b) = has k a || has k b.
Proof.
  unfold has. induction a as [|[k0 v0] r IH]; simpl; [reflexivity|].
  destruct (String.eqb k k0); [reflexivity|exact IH].
Qed.

Lemma set_absent {V} (k : string) (v : V) (m : t V) :
  has k m = false -> set k v m = m ++ [(k, v)].
Proof.
  unfold has. induction m as [|[k0 v0] r IH]; simpl; [reflexivity|].
  destruct (String.eqb k k0); [discriminate|]. intros H. rewrite IH by exact H. reflexivity.
Qed.

Lemma keys_nodup_middle {V} (k : string) (v : V) (a b : t V) :
  keys_nodup (a ++ (k, v) :: b) = true -> has k a = false.
Proof.
  unfold has at 1. induction a as [|[k0 v0] r IH]; simpl; [reflexivity|].
  intros H. apply andb_prop in H as [H1 H2].
  destruct (String.eqb_spec k k0) as [->|]; [|exact (IH H2)].
  assert (E : has k0 ((k0, v) :: b) = true)
    by (unfold has; simpl; rewrite String.eqb_refl; reflexivity).
  rewrite has_app, E, orb_true_r in H1. discriminate.
Qed.

Lemma of_entries_nodup {V} (l : t V) : keys_nodup l = true -> of_entries l = l.
Proof.
  unfold of_entries. change l with ([] ++ l) at 1 3. generalize (@nil (string * V)) as acc.
  induction l as [|[k v] r IH]; intros acc H; simpl; [symmetry; apply app_nil_r|].
  rewrite set_absent by exact (keys_nodup_middle _ _ _ _ H).
  rewrite IH; [rewrite <- app_assoc; reflexivity|].
  rewrite <- app_assoc. exact H.
Qed.

Lemma fold_set_nodup {V} (l : list (string * V)) (acc : t V) :
  keys_nodup acc = true ->
  keys_nodup (fold_left (fun m kv => set (fst kv) (snd kv) m) l acc) = true.
Proof.
  revert acc. induction l as [|kv r IH]; intros acc H; simpl; [exact H|].
  apply IH, keys_nodup_set, H.
Qed.

Lemma keys_nodup_of_entries {V} (l : list (string * V)) : keys_nodup (of_entries l) = true.
Proof. apply fold_set_nodup. reflexivity. Qed.
End JSMapFacts.

(** ** Training: reset and idempotence *)

Lemma train_nil (m : Model) :
  train m [] =
  {| vocabulary := []; documentFrequency := []; totalDocuments := 0;
     classDocCount := mkPC 0 0; classWordCounts := mkPC [] [];
     classTotalWords := mkPC 0 0;
     alpha := alpha m; minDf := minDf m; isTrained := isTrained m |}.
Proof. reflexivity. Qed.

Lemma train_train (m : Model) (c : list TrainItem) : train (train m c) c = train m c.
Proof. unfold train. destruct (length c =? 0); reflexivity. Qed.

Lemma predict_trained (m : Model) (x : Input) :
  isTrained m = true -> predict m x = classify m (tfidfFromFeatures m (inputFeatures x)).
Proof. intros H. unfold predict. rewrite H. reflexivity. Qed.

Lemma predict_features (m : Model) (x : Input) :
  predict m x = predictFeatures m (inputFeatures x).
Proof. reflexivity. Qed.

(** ** Prediction: the normalisation step *)
Section Normalisation.
Local Open Scope R_scope.

Lemma classify_scores (m : Model) (v : JSMap.t R) :
  let ls := logProb m Spam v in
  let lh := logProb m Ham v in
  let M := Rmax ls lh in
  let ps := exp (ls - M) / (exp (ls - M) + exp (lh - M)) in
  let ph := exp (lh - M) / (exp (ls - M) + exp (lh - M)) in
  scores (classify m v) = [("spam", ps); ("ham", ph)] /\
  p_label (classify m v) = (if Rlt_dec ph ps then "spam" else "ham") /\
  probability (classify m v) = (if Rlt_dec ph ps then ps else ph).
Proof.
  intros ls lh M ps ph. unfold classify. fold ls lh M ps ph.
  destruct (Rlt_dec ph ps); simpl; auto.
Qed.

Lemma normalised_sum (a b : R) :
  exp a / (exp a + exp b) + exp b / (exp a + exp b) = 1.
Proof.
  pose proof (exp_pos a). pose proof (exp_pos b). field. lra.
Qed.

End Normalisation.

(** ** Document frequencies *)
Section DocumentFrequency.
Import JSMapFacts.

Lemma occurrences_app (w : string) (a b : list string) :
  occurrences w (a ++ b) = occurrences w a + occurrences w b.
Proof. unfold occurrences. rewrite filter_app, length_app. reflexivity. Qed.

Lemma fold_incr_get0 (w : string) (l : list string) (df : JSMap.t nat) :
  JSMap.get0 w (fold_left (fun df word => incr word df) l df) =
  JSMap.get0 w df + occurrences w l.
Proof.
  revert df. induction l as [|x r IH]; intros df; simpl.
  - unfold occurrences. simpl. lia.
  - rewrite IH. unfold incr. rewrite get0_incr.
    unfold occurrences. simpl. destruct (String.eqb w x); simpl; lia.
Qed.

Let uniqStep := fun (acc : list string) (w : string) =>
  if existsb (String.eqb w) acc then acc else acc ++ [w].

Lemma uniq_mem (x : string) (l acc : list string) :
  existsb (String.eqb x) (fold_left uniqStep l acc) =
  existsb (String.eqb x) acc || existsb (String.eqb x) l.
Proof.
  revert acc. induction l as [|a r IH]; intros acc; simpl.
  - rewrite orb_false_r. reflexivity.
  - rewrite IH. unfold uniqStep.
    destruct (existsb (String.eqb a) acc) eqn:E.
    + destruct (String.eqb_spec x a) as [->|]; simpl; [rewrite E; reflexivity|reflexivity].
    + rewrite existsb_app. simpl. rewrite orb_false_r, orb_assoc. reflexivity.
Qed.

Lemma uniq_count (x : string) (l acc : list string) :
  occurrences x acc = (if existsb (String.eqb x) acc then 1 else 0) ->
  occurrences x (fold_left uniqStep l acc) =
  (if existsb (String.eqb x) (fold_left uniqStep l acc) then 1 else 0).
Proof.
  revert acc. induction l as [|a r IH]; intros acc H; simpl; [exact H|].
  apply IH. unfold uniqStep.
  destruct (existsb (String.eqb a) acc) eqn:E; [exact H|].
  rewrite occurrences_app, existsb_app, H. unfold occurrences at 1. simpl.
  destruct (String.eqb_spec x a) as [->|]; simpl.
  - rewrite E. reflexivity.
  - rewrite orb_false_r. destruct (existsb _ acc); reflexivity.
Qed.

Lemma uniqueWords_occurrences (x : string) (l : list string) :
  occurrences x (uniqueWords l) = if existsb (String.eqb x) l then 1 else 0.
Proof.
  unfold uniqueWords. fold uniqStep.
  rewrite uniq_count by reflexivity. rewrite uniq_mem. reflexivity.
Qed.

Lemma processItem_df (w : string) (a : Accum) (item : TrainItem) :
  JSMap.get0 w (a_documentFrequency (processItem a item)) =
  JSMap.get0 w (a_documentFrequency a) + (if containsFeature w item then 1 else 0).
Proof.
  unfold processItem, containsFeature.
  destruct (itemFeatures item) as [fs|]; [|simpl; lia].
  destruct (countWords _ _ _ _). simpl.
  rewrite fold_incr_get0, uniqueWords_occurrences. reflexivity.
Qed.

Lemma fold_process_df (w : string) (c : list TrainItem) (a : Accum) :
  JSMap.get0 w (a_documentFrequency (fold_left processItem c a)) =
  JSMap.get0 w (a_documentFrequency a) + docsContaining w c.
Proof.
  revert a. induction c as [|i r IH]; intros a; simpl.
  - unfold docsContaining. simpl. lia.
  - rewrite IH, processItem_df. unfold docsContaining. simpl.
    destruct (containsFeature w i); simpl; lia.
Qed.

Lemma docsContaining_le (w : string) (c : list TrainItem) : docsContaining w c <= length c.
Proof.
  unfold docsContaining. induction c as [|i r IH]; simpl; [lia|].
  destruct (containsFeature w i); simpl; lia.
Qed.

End DocumentFrequency.

(** ** Vocabulary *)
Section Vocabulary.
Import JSMapFacts.

Lemma fold_incr_nodup (l : list string) (df : JSMap.t nat) :
  JSMap.keys_nodup df = true ->
  JSMap.keys_nodup (fold_left (fun df word => incr word df) l df) = true.
Proof.
  revert df. induction l as [|x r IH]; intros df H; simpl; [exact H|].
  apply IH. unfold incr. apply keys_nodup_set, H.
Qed.

Lemma fold_process_nodup (c : list TrainItem) (a : Accum) :
  JSMap.keys_nodup (a_documentFrequency a) = true ->
  JSMap.keys_nodup (a_documentFrequency (fold_left processItem c a)) = true.
Proof.
  revert a. induction c as [|i r IH]; intros a H; simpl; [exact H|].
  apply IH. unfold processItem.
  destruct (itemFeatures i) as [fs|]; [|exact H].
  destruct (countWords _ _ _ _). simpl. apply fold_incr_nodup, H.
Qed.

Lemma exists_key_has (w : string) (p : string * nat -> bool) (l : JSMap.t nat) :
  existsb (fun e => String.eqb (fst e) w && p e) l = true -> JSMap.has w l = true.
Proof.
  unfold JSMap.has. induction l as [|[k0 v0] r IH]; simpl; [discriminate|].
  destruct (String.eqb_spec k0 w) as [->|Hne]; simpl.
  - rewrite String.eqb_refl. reflexivity.
  - intros H. apply String.eqb_neq in Hne. rewrite String.eqb_sym, Hne. exact (IH H).
Qed.

Lemma buildVocabulary_fold_has (k : nat) (w : string) (l : JSMap.t nat) (v : JSMap.t nat) (i : nat) :
  JSMap.has w (fst (fold_left (fun st e =>
          if k <=? snd e then (JSMap.set (fst e) (snd st) (fst st), S (snd st)) else st)
        l (v, i))) =
  JSMap.has w v || existsb (fun e => String.eqb (fst e) w && (k <=? snd e)) l.
Proof.
  revert v i. induction l as [|e r IH]; intros v i; simpl.
  - rewrite orb_false_r. reflexivity.
  - destruct (k <=? snd e); simpl; rewrite IH; [rewrite has_set, String.eqb_sym|];
      rewrite ?andb_true_r, ?andb_false_r; simpl;
      destruct (String.eqb (fst e) w), (JSMap.has w v); reflexivity.
Qed.

Lemma nodup_exists_get0 (k : nat) (w : string) (l : JSMap.t nat) :
  JSMap.keys_nodup l = true ->
  existsb (fun e => String.eqb (fst e) w && (k <=? snd e)) l = true ->
  k <= JSMap.get0 w l.
Proof.
  induction l as [|[k0 v0] r IH]; simpl; [discriminate|].
  intros Hn He. apply andb_prop in Hn as [H1 H2].
  unfold JSMap.get0. simpl. destruct (String.eqb_spec w k0) as [->|Hne].
  - rewrite String.eqb_refl in He. simpl in He.
    destruct (k <=? v0) eqn:Ek; [apply Nat.leb_le, Ek|].
    simpl in He. rewrite (exists_key_has _ _ _ He) in H1. discriminate.
  - assert (E : String.eqb k0 w = false) by (apply String.eqb_neq; congruence).
    rewrite E in He. simpl in He. exact (IH H2 He).
Qed.

Lemma buildVocabulary_gate (k : nat) (w : string) (df : JSMap.t nat) :
  JSMap.keys_nodup df = true -> JSMap.get0 w df < k ->
  JSMap.has w (buildVocabulary k df) = false.
Proof.
  intros Hn Hlt. unfold buildVocabulary.
  rewrite buildVocabulary_fold_has. simpl.
  destruct (existsb _ df) eqn:E; [|reflexivity].
  pose proof (nodup_exists_get0 k w df Hn E). lia.
Qed.

End Vocabulary.

Lemma logProb_skip (m : Model) (lbl : Label) (w : string) (v : JSMap.t R) :
  JSMap.has w (vocabulary m) = false -> logProb m lbl v = logProb m lbl (skipEntry w v).
Proof.
  intros H. unfold logProb, skipEntry.
  generalize (ln ((INR (pc_get lbl (classDocCount m)) + alpha m) /
                  (INR (totalDocuments m) + 2 * alpha m)))%R as lp.
  induction v as [|[k x] r IH]; intros lp; [reflexivity|].
  cbn [fold_left filter fst].
  destruct (String.eqb_spec k w) as [->|Hne].
  - rewrite H. cbn [negb]. apply IH.
  - cbn [negb fold_left]. apply IH.
Qed.

(** ** Snapshots *)
Lemma deserialize_serialize (m : Model) :
  wf_model m = true ->
  deserialize fresh (Some (serialize m)) = withConfig m 1%R 2.
Proof.
  unfold wf_model. intros H.
  apply andb_prop in H as [H H4]. apply andb_prop in H as [H H3].
  apply andb_prop in H as [H1 H2].
  unfold deserialize, serialize, withConfig, JSMap.entries.
  cbn [or_default s_vocabulary s_documentFrequency s_totalDocuments s_classDocCount
       s_classWordCounts s_classTotalWords s_isTrained spam ham alpha minDf fresh].
  rewrite !JSMapFacts.of_entries_nodup by assumption.
  destruct (classWordCounts m). reflexivity.
Qed.

Lemma predict_minDf (m : Model) (k : nat) (x : Input) :
  predict (withConfig m (alpha m) k) x = predict m x.
Proof. destruct m. reflexivity. Qed.

Lemma wf_deserialize (m : Model) (d : Snapshot) : wf_model (deserialize m (Some d)) = true.
Proof. unfold wf_model. simpl. rewrite !JSMapFacts.keys_nodup_of_entries. reflexivity. Qed.

Section WellFormed.
Import JSMapFacts.

Lemma pc_upd_nodup (lbl : Label) (f : JSMap.t nat -> JSMap.t nat) (p : PerClass (JSMap.t nat)) :
  (forall m, JSMap.keys_nodup m = true -> JSMap.keys_nodup (f m) = true) ->
  JSMap.keys_nodup (spam p) && JSMap.keys_nodup (ham p) = true ->
  JSMap.keys_nodup (spam (pc_upd lbl f p)) && JSMap.keys_nodup (ham (pc_upd lbl f p)) = true.
Proof.
  intros Hf H. apply andb_prop in H as [H1 H2].
  destruct lbl; simpl; rewrite ?Hf, ?H1, ?H2 by assumption; reflexivity.
Qed.

Lemma countWords_nodup (lbl : Label) (fs : list string) cwc ctw :
  JSMap.keys_nodup (spam cwc) && JSMap.keys_nodup (ham cwc) = true ->
  JSMap.keys_nodup (spam (fst (countWords lbl fs cwc ctw)))
  && JSMap.keys_nodup (ham (fst (countWords lbl fs cwc ctw))) = true.
Proof.
  unfold countWords. revert cwc ctw.
  induction fs as [|w r IH]; intros cwc ctw H; simpl; [exact H|].
  apply IH, pc_upd_nodup; [|exact H].
  intros m Hm. apply keys_nodup_set, Hm.
Qed.

Lemma fold_process_cwc_nodup (c : list TrainItem) (a : Accum) :
  JSMap.keys_nodup (spam (a_classWordCounts a)) && JSMap.keys_nodup (ham (a_classWordCounts a)) = true ->
  JSMap.keys_nodup (spam (a_classWordCounts (fold_left processItem c a)))
  && JSMap.keys_nodup (ham (a_classWordCounts (fold_left processItem c a))) = true.
Proof.
  revert a. induction c as [|i r IH]; intros a H; simpl; [exact H|].
  apply IH. unfold processItem.
  destruct (itemFeatures i) as [fs|]; [|exact H].
  pose proof (countWords_nodup (label i) fs (a_classWordCounts a) (a_classTotalWords a) H) as Hc.
  destruct (countWords _ _ _ _). exact Hc.
Qed.

Lemma buildVocabulary_nodup (k : nat) (df : JSMap.t nat) :
  JSMap.keys_nodup (buildVocabulary k df) = true.
Proof.
  unfold buildVocabulary.
  assert (G : forall l v i, JSMap.keys_nodup v = true ->
            JSMap.keys_nodup (fst (fold_left (fun st e =>
              if k <=? snd e then (JSMap.set (fst e) (snd st) (fst st), S (snd st)) else st)
              l (v, i))) = true).
  { induction l as [|e r IH]; intros v i H; simpl; [exact H|].
    destruct (k <=? snd e); apply IH; [apply keys_nodup_set|]; exact H. }
  apply G. reflexivity.
Qed.

(** Every trained model satisfies [wf_model]. *)
Lemma wf_train (m : Model) (c : list TrainItem) : wf_model (train m c) = true.
Proof.
  unfold wf_model, train. destruct (length c =? 0); [reflexivity|].
  cbn [vocabulary documentFrequency classWordCounts].
  rewrite buildVocabulary_nodup, fold_process_nodup by reflexivity.
  simpl. apply fold_process_cwc_nodup. reflexivity.
Qed.

End WellFormed.

(** ** Scores *)
Section Scores.
Local Open Scope R_scope.

Lemma shift_normalise (a b M : R) :
  exp (a - M) / (exp (a - M) + exp (b - M)) = exp a / (exp a + exp b).
Proof.
  unfold Rminus. rewrite !exp_plus.
  pose proof (exp_pos a). pose proof (exp_pos b). pose proof (exp_pos (- M)).
  field. split; [lra|]. apply Rgt_not_eq.
  rewrite <- Rmult_plus_distr_r. apply Rmult_lt_0_compat; lra.
Qed.

Lemma classify_spam_score (m : Model) (v : JSMap.t R) :
  scoreOf "spam" (classify m v) =
  Some (exp (logProb m Spam v) / (exp (logProb m Spam v) + exp (logProb m Ham v))).
Proof.
  unfold scoreOf. destruct (classify_scores m v) as (Hs & _ & _). rewrite Hs.
  simpl. rewrite shift_normalise. reflexivity.
Qed.

Lemma spam_score_inj (a b c : R) :
  exp a / (exp a + exp b) = exp a / (exp a + exp c) -> b = c.
Proof.
  intros H. apply exp_inv.
  pose proof (exp_pos a). pose proof (exp_pos b). pose proof (exp_pos c).
  assert (E : exp a + exp b = exp a + exp c).
  { apply Rmult_eq_reg_l with (/ exp a); [|apply Rgt_not_eq, Rinv_0_lt_compat; lra].
    apply Rinv_eq_compat in H. unfold Rdiv in H.
    rewrite !Rinv_mult, !Rinv_inv in H. rewrite Rmult_comm, <- H. ring. }
  lra.
Qed.

End Scores.

Lemma some_inj {A} (a b : A) : Some a = Some b -> a = b.
Proof. intros H. injection H as H. exact H. Qed.

Lemma predictFeatures_trained (m : Model) (f : list string) :
  isTrained m = true -> predictFeatures m f = classify m (tfidfFromFeatures m f).
Proof. intros H. unfold predictFeatures. rewrite H. reflexivity. Qed.

(** ** Tokens outside the vocabulary *)

Lemma classify_logProb_ext (m : Model) (v v' : JSMap.t R) :
  (forall lbl, logProb m lbl v = logProb m lbl v') -> classify m v = classify m v'.
Proof. intros H. unfold classify. rewrite (H Spam), (H Ham). reflexivity. Qed.

Lemma tfidf_withLength (m : Model) (f : list string) :
  tfidfFromFeatures m f = tfidfWithLength m f (match length f with O => 1 | n => n end).
Proof. unfold tfidfFromFeatures, termFrequency, tfidfWithLength. rewrite map_map. reflexivity. Qed.

Lemma filter_set_other {V} (u w : string) (v : V) (m : JSMap.t V) :
  w <> u ->
  filter (fun e => negb (String.eqb (fst e) u)) (JSMap.set w v m) =
  JSMap.set w v (filter (fun e => negb (String.eqb (fst e) u)) m).
Proof.
  intros Hne. induction m as [|[k x] r IH]; cbn [JSMap.set filter fst].
  - destruct (String.eqb_spec w u); [congruence|reflexivity].
  - destruct (String.eqb_spec w k) as [<-|Hk].
    + cbn [filter fst]. destruct (String.eqb_spec w u); [congruence|].
      cbn [negb JSMap.set]. rewrite String.eqb_refl. reflexivity.
    + cbn [filter fst]. destruct (String.eqb_spec k u); cbn [negb]; [exact IH|].
      cbn [JSMap.set]. destruct (String.eqb_spec w k); [congruence|]. rewrite IH. reflexivity.
Qed.

Lemma filter_set_same {V} (u : string) (v : V) (m : JSMap.t V) :
  filter (fun e => negb (String.eqb (fst e) u)) (JSMap.set u v m) =
  filter (fun e => negb (String.eqb (fst e) u)) m.
Proof.
  induction m as [|[k x] r IH]; cbn [JSMap.set filter fst].
  - rewrite String.eqb_refl. reflexivity.
  - destruct (String.eqb_spec u k) as [<-|Hk].
    + cbn [filter fst]. rewrite String.eqb_refl. reflexivity.
    + cbn [filter fst]. destruct (String.eqb_spec k u); [congruence|]. cbn [negb]. rewrite IH. reflexivity.
Qed.

Lemma get0_filter_other (u w : string) (m : JSMap.t nat) :
  w <> u -> JSMap.get0 w (filter (fun e => negb (String.eqb (fst e) u)) m) = JSMap.get0 w m.
Proof.
  intros Hne. unfold JSMap.get0. induction m as [|[k x] r IH]; [reflexivity|].
  cbn [filter fst JSMap.get]. destruct (String.eqb_spec k u) as [->|Hk]; cbn [negb JSMap.get].
  - destruct (String.eqb_spec w u); [congruence|exact IH].
  - destruct (String.eqb w k); [reflexivity|exact IH].
Qed.

(** Counting a sequence and dropping the entry of [u] is counting the
    sequence without [u]. *)
Lemma rawCounts_skip (u : string) (l : list string) (m : JSMap.t nat) :
  filter (fun e => negb (String.eqb (fst e) u)) (fold_left (fun tf w => incr w tf) l m) =
  fold_left (fun tf w => incr w tf) (filter (fun w => negb (String.eqb w u)) l)
            (filter (fun e => negb (String.eqb (fst e) u)) m).
Proof.
  revert m. induction l as [|w r IH]; intros m; [reflexivity|].
  cbn [fold_left filter]. rewrite IH. destruct (String.eqb_spec w u) as [->|Hne]; cbn [negb].
  - unfold incr. rewrite filter_set_same. reflexivity.
  - cbn [fold_left]. f_equal. unfold incr.
    rewrite filter_set_other by exact Hne. rewrite get0_filter_other by exact Hne. reflexivity.
Qed.

Lemma skipEntry_map (u : string) (g : string * nat -> R) (m : JSMap.t nat) :
  skipEntry u (map (fun e => (fst e, g e)) m) =
  map (fun e => (fst e, g e)) (filter (fun e => negb (String.eqb (fst e) u)) m).
Proof.
  unfold skipEntry. induction m as [|e r IH]; [reflexivity|].
  cbn [map filter fst]. destruct (negb (String.eqb (fst e) u)); cbn [map]; rewrite IH; reflexivity.
Qed.

Lemma logProb_unseen_inside (m : Model) (lbl : Label) (f1 f2 : list string) (u : string) :
  JSMap.has u (vocabulary m) = false ->
  logProb m lbl (tfidfFromFeatures m (f1 ++ u :: f2)) =
  logProb m lbl (tfidfWithLength m (f1 ++ f2) (S (length (f1 ++ f2)))).
Proof.
  intros H. rewrite tfidf_withLength.
  replace (match length (f1 ++ u :: f2) with O => 1 | n => n end) with (S (length (f1 ++ f2)))
    by (rewrite !length_app; cbn [length]; rewrite Nat.add_succ_r; reflexivity).
  rewrite (logProb_skip m lbl u (tfidfWithLength m (f1 ++ u :: f2) _) H).
  rewrite (logProb_skip m lbl u (tfidfWithLength m (f1 ++ f2) _) H).
  unfold tfidfWithLength, rawCounts. rewrite !skipEntry_map, !rawCounts_skip.
  rewrite !filter_app. cbn [filter]. rewrite String.eqb_refl. reflexivity.
Qed.

(** * Claims *)

(** ** C3: training on an empty corpus *)

(** C3 (as stated, refuted): training a fresh model on the empty corpus does
    not set the trained flag: [train] returns before [isTrained = true]. *)
Lemma C3_counterexample :
  ~ (vocabulary (train fresh []) = [] /\ documentFrequency (train fresh []) = [] /\
     isTrained (train fresh []) = true).
Proof. simpl. intros (_ & _ & H). discriminate H. Qed.

(** C3 (amended): training on an empty corpus empties every accumulator
    (vocabulary, document frequencies, per-class word counts, per-class
    totals, per-class document counts, total document count) and leaves the
    trained flag as it was, so a never-trained model stays untrained. *)
Theorem train_empty_corpus (m : Model) :
  vocabulary (train m []) = [] /\ documentFrequency (train m []) = [] /\
  classWordCounts (train m []) = mkPC [] [] /\ classTotalWords (train m []) = mkPC 0 0 /\
  classDocCount (train m []) = mkPC 0 0 /\ totalDocuments (train m []) = 0 /\
  isTrained (train m []) = isTrained m.
Proof. rewrite train_nil. simpl. repeat split. Qed.

(** ** C4: normalised scores *)

(** C4: on a trained model every prediction returns the two scores [spam]
    and [ham], they sum to 1, and the returned probability is the score the
    map gives the returned label. *)
Theorem predict_scores_normalised (m : Model) (x : Input) :
  isTrained m = true ->
  exists ps ph,
    scores (predict m x) = [("spam", ps); ("ham", ph)] /\ (ps + ph = 1)%R /\
    scoreOf (p_label (predict m x)) (predict m x) = Some (probability (predict m x)).
Proof.
  intros Ht. rewrite (predict_trained m x Ht).
  destruct (classify_scores m (tfidfFromFeatures m (inputFeatures x)))
    as (Hs & Hl & Hp).
  eexists; eexists; split; [exact Hs|split].
  - apply normalised_sum.
  - unfold scoreOf. rewrite Hs, Hl, Hp.
    destruct (Rlt_dec _ _); reflexivity.
Qed.

(** C4 at a model trained on scenario A's corpus and a structured record. *)
Lemma predict_scores_normalised_witness :
  isTrained (train fresh corpusA) = true /\
  exists ps ph,
    scores (predict (train fresh corpusA) (InEmail (mkEmail None None (Some "free prize") (Some "prize")))) = [("spam", ps); ("ham", ph)] /\ (ps + ph = 1)%R /\
    scoreOf (p_label (predict (train fresh corpusA) (InEmail (mkEmail None None (Some "free prize") (Some "prize")))))
      (predict (train fresh corpusA) (InEmail (mkEmail None None (Some "free prize") (Some "prize"))))
    = Some (probability (predict (train fresh corpusA) (InEmail (mkEmail None None (Some "free prize") (Some "prize"))))).
Proof.
  split; [reflexivity|].
  apply (predict_scores_normalised (train fresh corpusA)
           (InEmail (mkEmail None None (Some "free prize") (Some "prize")))).
  reflexivity.
Defined.

(** ** C5: the untrained sentinel *)

(** C5: on a model whose trained flag is false, [predict] returns label
    "unknown", probability 0 and an empty score map, whatever the input. *)
Theorem predict_untrained (m : Model) (x : Input) :
  isTrained m = false -> predict m x = mkPrediction "unknown" 0%R [].
Proof. intros H. unfold predict. rewrite H. reflexivity. Qed.

Lemma predict_untrained_witness :
  isTrained fresh = false /\
  predict fresh (InEmail (mkEmail None None None None)) = mkPrediction "unknown" 0%R [].
Proof.
  split; [reflexivity|].
  apply (predict_untrained fresh (InEmail (mkEmail None None None None))). reflexivity.
Defined.

(** ** C7: feature channels *)

(** C7: the features of a record are the [name_] sender-name tokens, the
    sender-email features (none when the address is missing), every subject
    token once with prefix [subj_] and once bare, then every body token once
    bare; a missing field has no tokens ([fieldTokens None = []]). *)
Theorem extractFeatures_channels (e : EmailData) :
  exists emailPart,
    (senderEmail e = None -> emailPart = []) /\
    extractFeatures e =
      map (String.append "name_") (fieldTokens (senderName e)) ++ emailPart
      ++ map (String.append "subj_") (fieldTokens (subject e)) ++ fieldTokens (subject e)
      ++ fieldTokens (body e).
Proof.
  destruct e as [n em sb bd]. cbn [senderName senderEmail subject body].
  rewrite <- (truthy_tokens n), <- (truthy_tokens sb), <- (truthy_tokens bd).
  exists (match truthy em with
          | Some a => match email_domain a with
                      | Some d => [String.append "domain_" (toLowerCase d);
                                   String.append "tld_" (last_label d)]
                      | None => [] end
          | None => [] end).
  split; [intros ->; reflexivity|].
  unfold extractFeatures; cbn [senderName senderEmail subject body].
  destruct (truthy n), (truthy em) as [a|], (truthy sb), (truthy bd);
    try destruct (email_domain a);
    cbv zeta; rewrite ?app_nil_l, ?app_nil_r, <- ?app_assoc; reflexivity.
Qed.

(** ** C9: retraining on the same corpus *)

(** C9: training a fresh model on a corpus twice in succession gives the
    same serialized state as training it once. *)
Theorem train_twice_serialize (c : list TrainItem) :
  serialize (train (train fresh c) c) = serialize (train fresh c).
Proof. rewrite train_train. reflexivity. Qed.

(** ** C10: ties *)

(** C10: on a trained model, when the two normalised scores are equal the
    predicted label is "ham" (the comparison is strict). *)
Theorem predict_tie_ham (m : Model) (x : Input) :
  isTrained m = true ->
  scoreOf "spam" (predict m x) = scoreOf "ham" (predict m x) ->
  p_label (predict m x) = "ham".
Proof.
  intros Ht. rewrite (predict_trained m x Ht). unfold scoreOf.
  destruct (classify_scores m (tfidfFromFeatures m (inputFeatures x))) as (Hs & Hl & _).
  rewrite Hs, Hl. simpl. intros Heq. injection Heq as Heq.
  destruct (Rlt_dec _ _) as [Hlt|]; [|reflexivity].
  exfalso. rewrite Heq in Hlt. exact (Rlt_irrefl _ Hlt).
Qed.

Lemma predict_tie_ham_witness :
  isTrained (train fresh corpusTie) = true /\
  scoreOf "spam" (predict (train fresh corpusTie) (InText "")) =
  scoreOf "ham" (predict (train fresh corpusTie) (InText "")) /\
  p_label (predict (train fresh corpusTie) (InText "")) = "ham".
Proof.
  assert (Ht : isTrained (train fresh corpusTie) = true) by reflexivity.
  assert (He : scoreOf "spam" (predict (train fresh corpusTie) (InText "")) =
               scoreOf "ham" (predict (train fresh corpusTie) (InText ""))) by reflexivity.
  split; [exact Ht|split; [exact He|]].
  exact (predict_tie_ham (train fresh corpusTie) (InText "") Ht He).
Defined.

(** ** C8: document frequencies *)

(** C8: after training, the recorded document frequency of every feature
    is the number of training items whose features contain it (repetitions
    inside one item counted once), and it is at most the total document
    count. *)
Theorem train_document_frequency (m : Model) (c : list TrainItem) (w : string) :
  JSMap.get0 w (documentFrequency (train m c)) = docsContaining w c /\
  JSMap.get0 w (documentFrequency (train m c)) <= totalDocuments (train m c).
Proof.
  destruct c as [|i r].
  - rewrite train_nil. split; [reflexivity|apply le_n].
  - unfold train. simpl (length (i :: r) =? 0). cbn [documentFrequency totalDocuments].
    rewrite fold_process_df. simpl (JSMap.get0 w (a_documentFrequency emptyAccum)).
    split; [reflexivity|]. apply docsContaining_le.
Qed.

(** ** C6: vocabulary gating *)

(** C6: after training, a feature whose document frequency is below the
    configured minimum is not in the vocabulary, and for every later
    prediction each class's log-score equals the log-score computed with that
    feature's TF-IDF entry skipped. *)
Theorem train_vocabulary_gating (m : Model) (c : list TrainItem) (w : string) :
  JSMap.get0 w (documentFrequency (train m c)) < minDf m ->
  JSMap.has w (vocabulary (train m c)) = false /\
  forall (features : list string) (lbl : Label),
    logProb (train m c) lbl (tfidfFromFeatures (train m c) features) =
    logProb (train m c) lbl (skipEntry w (tfidfFromFeatures (train m c) features)).
Proof.
  intros Hlt.
  assert (Hv : JSMap.has w (vocabulary (train m c)) = false).
  { destruct c as [|i r]; [reflexivity|].
    revert Hlt. unfold train. simpl (length (i :: r) =? 0).
    cbn [vocabulary documentFrequency]. apply buildVocabulary_gate.
    apply fold_process_nodup. reflexivity. }
  split; [exact Hv|]. intros features lbl. apply logProb_skip, Hv.
Qed.

Lemma train_vocabulary_gating_witness :
  JSMap.get0 "bb" (documentFrequency (train fresh corpusOov)) < minDf fresh /\
  JSMap.has "bb" (vocabulary (train fresh corpusOov)) = false /\
  forall (features : list string) (lbl : Label),
    logProb (train fresh corpusOov) lbl (tfidfFromFeatures (train fresh corpusOov) features) =
    logProb (train fresh corpusOov) lbl
      (skipEntry "bb" (tfidfFromFeatures (train fresh corpusOov) features)).
Proof.
  assert (H : JSMap.get0 "bb" (documentFrequency (train fresh corpusOov)) < minDf fresh)
    by (apply Nat.ltb_lt; vm_compute; reflexivity).
  split; [exact H|]. exact (train_vocabulary_gating fresh corpusOov "bb" H).
Defined.

(** ** C1: snapshot round trip *)

(** C1 (as stated, refuted): [serialize] does not record the smoothing
    constant, so a model trained with alpha = 2 and its snapshot loaded into
    a fresh model (alpha = 1) give different scores on the empty text. *)
Lemma C1_counterexample :
  predict (deserialize fresh (Some (serialize modelAlpha2))) (InText "") <>
  predict modelAlpha2 (InText "").
Proof.
  intros Heq. apply (f_equal (scoreOf "spam")) in Heq.
  rewrite !predict_trained in Heq by reflexivity.
  rewrite !classify_spam_score in Heq. apply some_inj in Heq.
  cbv -[ln exp Rplus Rmult Rdiv Rinv Rminus Ropp IZR] in Heq.
  rewrite !exp_ln in Heq by (apply Rdiv_lt_0_compat; lra).
  field_simplify in Heq; lra.
Qed.

(** C1 (amended): for every well-formed model (every model that [train] or
    [deserialize] builds) whose smoothing constant is the default 1.0, with
    any minimum document frequency, a fresh model loaded with its snapshot
    predicts exactly as it does on every input. *)
Theorem roundtrip_predict (m : Model) (x : Input) :
  wf_model m = true -> alpha m = 1%R ->
  predict (deserialize fresh (Some (serialize m))) x = predict m x.
Proof.
  intros Hw Ha. rewrite (deserialize_serialize m Hw), <- Ha. apply predict_minDf.
Qed.

Lemma roundtrip_predict_witness :
  wf_model (train fresh corpusA) = true /\ alpha (train fresh corpusA) = 1%R /\
  predict (deserialize fresh (Some (serialize (train fresh corpusA))))
    (InEmail (mkEmail None None (Some "free prize") (Some "prize"))) =
  predict (train fresh corpusA) (InEmail (mkEmail None None (Some "free prize") (Some "prize"))).
Proof.
  assert (Hw : wf_model (train fresh corpusA) = true) by (vm_compute; reflexivity).
  assert (Ha : alpha (train fresh corpusA) = 1%R) by reflexivity.
  split; [exact Hw|split; [exact Ha|]].
  exact (roundtrip_predict (train fresh corpusA)
           (InEmail (mkEmail None None (Some "free prize") (Some "prize"))) Hw Ha).
Defined.

(** ** C2: a token never seen in training *)

(** C2 (as stated, refuted): "zz" never occurs in [corpusOov], yet adding it
    to ["aa"] changes the posterior: the term frequency of "aa" drops from 1
    to 1/2 because the unseen token counts in the instance length. *)
Lemma C2_counterexample :
  JSMap.get0 "zz" (documentFrequency modelOov) = 0 /\
  JSMap.has "zz" (vocabulary modelOov) = false /\
  predictFeatures modelOov (["aa"] ++ ["zz"]) <> predictFeatures modelOov ["aa"].
Proof.
  split; [reflexivity|split; [reflexivity|]].
  intros Heq. apply (f_equal (scoreOf "spam")) in Heq.
  rewrite !predictFeatures_trained in Heq by reflexivity.
  rewrite !classify_spam_score in Heq. apply some_inj in Heq.
  cbv -[ln exp Rplus Rmult Rdiv Rinv Rminus Ropp IZR] in Heq.
  replace ((1 + 1) / (1 + 1 * 1))%R with 1%R in Heq by field.
  replace ((1 + 1 + 1) / (1 + 1 + 1))%R with 1%R in Heq by field.
  rewrite ln_1 in Heq.
  replace ((1 + 1) / (1 + 1 + 1 * 1))%R with (2 / 3)%R in Heq by field.
  set (P := ln ((1 + 1) / (1 + 1 + 2 * 1))) in Heq.
  assert (HL : (ln (2 / 3) < 0)%R).
  { rewrite <- ln_1. apply ln_increasing; lra. }
  set (L := ln (2 / 3)) in *.
  assert (Z : forall t, (P + 0 * t = P)%R) by (intros; ring).
  rewrite !Z in Heq. apply spam_score_inj in Heq.
  lra.
Qed.

(** C2 (amended): a token outside the vocabulary (for instance one no
    training document contains), inserted anywhere in a feature sequence,
    never makes prediction fail and its own TF-IDF entry is ignored, but it
    counts in the instance length: the result is the prediction on the
    sequence without it with every term frequency divided by n + 1 instead
    of n. *)
Theorem predict_unseen_token (m : Model) (f1 f2 : list string) (u : string) :
  JSMap.has u (vocabulary m) = false ->
  predictFeatures m (f1 ++ u :: f2) =
  (if isTrained m then classify m (tfidfWithLength m (f1 ++ f2) (S (length (f1 ++ f2))))
   else unknownResult).
Proof.
  intros H. unfold predictFeatures.
  destruct (isTrained m); [|reflexivity]. cbn [negb].
  apply classify_logProb_ext. intros lbl. apply logProb_unseen_inside, H.
Qed.

Lemma predict_unseen_token_witness :
  JSMap.has "zz" (vocabulary modelOov) = false /\
  predictFeatures modelOov (["aa"] ++ "zz" :: ["bb"]) =
  (if isTrained modelOov
   then classify modelOov (tfidfWithLength modelOov (["aa"] ++ ["bb"]) (S (length (["aa"] ++ ["bb"]))))
   else unknownResult).
Proof.
  assert (H : JSMap.has "zz" (vocabulary modelOov) = false) by reflexivity.
  split; [exact H|]. exact (predict_unseen_token modelOov ["aa"] ["bb"] "zz" H).
Defined.

(** * Further properties of the background script *)

Section TrainingCounts.
Import JSMapFacts.

Lemma pc_get_upd {A} (l l' : Label) (f : A -> A) (p : PerClass A) :
  pc_get l (pc_upd l' f p) = if label_eqb l' l then f (pc_get l p) else pc_get l p.
Proof. destruct l, l', p; reflexivity. Qed.

Lemma countWords_eq (lbl : Label) (fs : list string) cwc ctw :
  countWords lbl fs cwc ctw =
  (pc_upd lbl (fun m => fold_left (fun m w => incr w m) fs m) cwc,
   pc_upd lbl (fun n => n + length fs) ctw).
Proof.
  unfold countWords. revert cwc ctw.
  induction fs as [|w r IH]; intros cwc ctw; simpl.
  - destruct lbl, cwc, ctw; simpl; rewrite Nat.add_0_r; reflexivity.
  - rewrite IH. destruct lbl, cwc, ctw; simpl; f_equal; f_equal; lia.
Qed.

Lemma processItem_eq (a : Accum) (i : TrainItem) :
  processItem a i =
  match itemFeatures i with
  | None => a
  | Some fs =>
      mkAccum (fold_left (fun df word => incr word df) (uniqueWords fs) (a_documentFrequency a))
        (pc_upd (label i) S (a_classDocCount a))
        (pc_upd (label i) (fun m => fold_left (fun m w => incr w m) fs m) (a_classWordCounts a))
        (pc_upd (label i) (fun n => n + length fs) (a_classTotalWords a))
  end.
Proof. unfold processItem. destruct (itemFeatures i); [|reflexivity]. rewrite countWords_eq. reflexivity. Qed.

Lemma classFeatures_cons (lbl : Label) (i : TrainItem) (c : list TrainItem) :
  classFeatures lbl (i :: c) =
  (if label_eqb (label i) lbl then match itemFeatures i with Some fs => fs | None => [] end else [])
  ++ classFeatures lbl c.
Proof. reflexivity. Qed.

Lemma mapTotal_incr (w : string) (m : JSMap.t nat) : mapTotal (incr w m) = mapTotal m + 1.
Proof.
  unfold incr, mapTotal. induction m as [|[k v] r IH]; [reflexivity|].
  unfold JSMap.get0 in *. cbn [JSMap.set JSMap.get].
  destruct (String.eqb_spec w k) as [->|Hne]; simpl; [lia|].
  rewrite IH. lia.
Qed.

Lemma mapTotal_fold (fs : list string) (m : JSMap.t nat) :
  mapTotal (fold_left (fun m w => incr w m) fs m) = mapTotal m + length fs.
Proof.
  revert m. induction fs as [|w r IH]; intros m; simpl; [lia|].
  rewrite IH, mapTotal_incr. lia.
Qed.

Lemma fold_process_cwc (w : string) (lbl : Label) (c : list TrainItem) (a : Accum) :
  JSMap.get0 w (pc_get lbl (a_classWordCounts (fold_left processItem c a))) =
  JSMap.get0 w (pc_get lbl (a_classWordCounts a)) + occurrences w (classFeatures lbl c).
Proof.
  revert a. induction c as [|i r IH]; intros a; simpl fold_left.
  - unfold occurrences. simpl. lia.
  - rewrite IH, classFeatures_cons, occurrences_app, processItem_eq.
    destruct (itemFeatures i) as [fs|]; simpl.
    + rewrite pc_get_upd. destruct (label_eqb (label i) lbl).
      * rewrite fold_incr_get0. lia.
      * unfold occurrences at 2. simpl. lia.
    + destruct (label_eqb (label i) lbl); unfold occurrences at 2; simpl; lia.
Qed.

Lemma fold_process_ctw (lbl : Label) (c : list TrainItem) (a : Accum) :
  pc_get lbl (a_classTotalWords (fold_left processItem c a)) =
  pc_get lbl (a_classTotalWords a) + length (classFeatures lbl c) /\
  mapTotal (pc_get lbl (a_classWordCounts (fold_left processItem c a))) =
  mapTotal (pc_get lbl (a_classWordCounts a)) + length (classFeatures lbl c).
Proof.
  revert a. induction c as [|i r IH]; intros a; simpl fold_left.
  - simpl. lia.
  - destruct (IH (processItem a i)) as [IH1 IH2]. rewrite IH1, IH2.
    rewrite classFeatures_cons, length_app, processItem_eq.
    destruct (itemFeatures i) as [fs|]; simpl.
    + rewrite !pc_get_upd. destruct (label_eqb (label i) lbl); [rewrite mapTotal_fold|]; simpl; lia.
    + destruct (label_eqb (label i) lbl); simpl; lia.
Qed.

Lemma fold_process_cdc (c : list TrainItem) (a : Accum) :
  spam (a_classDocCount (fold_left processItem c a)) + ham (a_classDocCount (fold_left processItem c a)) =
  spam (a_classDocCount a) + ham (a_classDocCount a) + length (filter hasFeatures c).
Proof.
  revert a. induction c as [|i r IH]; intros a; simpl fold_left; [simpl; lia|].
  rewrite IH, processItem_eq. unfold hasFeatures. simpl filter.
  destruct (itemFeatures i) as [fs|]; simpl; [|lia].
  destruct (label i), (a_classDocCount a); simpl; lia.
Qed.

(** After [train], the count a class keeps for a word is the number of
    occurrences of the word in the features of the items of that class. *)
Theorem train_class_word_counts (m : Model) (c : list TrainItem) (lbl : Label) (w : string) :
  JSMap.get0 w (pc_get lbl (classWordCounts (train m c))) = occurrences w (classFeatures lbl c).
Proof.
  unfold train. destruct c as [|i r]; [destruct lbl; reflexivity|].
  cbn [length Nat.eqb classWordCounts].
  rewrite fold_process_cwc. destruct lbl; reflexivity.
Qed.

(** After [train], the total word count of a class is the number of features
    of its items, and equals the sum of its per-word counts. *)
Theorem train_class_totals (m : Model) (c : list TrainItem) (lbl : Label) :
  pc_get lbl (classTotalWords (train m c)) = length (classFeatures lbl c) /\
  pc_get lbl (classTotalWords (train m c)) = mapTotal (pc_get lbl (classWordCounts (train m c))).
Proof.
  unfold train. destruct c as [|i r]; [destruct lbl; split; reflexivity|].
  cbn [length Nat.eqb classWordCounts classTotalWords].
  destruct (fold_process_ctw lbl (i :: r) emptyAccum) as [H1 H2].
  rewrite H1, H2. destruct lbl; simpl; split; reflexivity.
Qed.

(** After [train], the two class document counts add up to the number of
    items that yield features, while [totalDocuments] counts every item. *)
Theorem train_class_doc_counts (m : Model) (c : list TrainItem) :
  spam (classDocCount (train m c)) + ham (classDocCount (train m c)) = length (filter hasFeatures c) /\
  totalDocuments (train m c) = length c.
Proof.
  unfold train. destruct c as [|i r]; [split; reflexivity|].
  cbn [length Nat.eqb classDocCount totalDocuments].
  rewrite fold_process_cdc. simpl. split; reflexivity.
Qed.

Lemma has_cons {V} (k k0 : string) (v0 : V) (r : JSMap.t V) :
  JSMap.has k ((k0, v0) :: r) = String.eqb k k0 || JSMap.has k r.
Proof. unfold JSMap.has. simpl. destruct (String.eqb k k0); reflexivity. Qed.

Lemma positive_has (w : string) (m : JSMap.t nat) :
  positive_counts m = true -> JSMap.has w m = negb (JSMap.get0 w m =? 0).
Proof.
  unfold positive_counts, JSMap.has, JSMap.get0.
  induction m as [|[k v] r IH]; simpl; [reflexivity|].
  intros H. apply andb_prop in H as [H1 H2].
  destruct (String.eqb w k); [|exact (IH H2)].
  destruct v; [discriminate|reflexivity].
Qed.

Lemma positive_get (w : string) (m : JSMap.t nat) :
  positive_counts m = true ->
  JSMap.get w m = if JSMap.get0 w m =? 0 then None else Some (JSMap.get0 w m).
Proof.
  unfold positive_counts, JSMap.get0.
  induction m as [|[k v] r IH]; simpl; [reflexivity|].
  intros H. apply andb_prop in H as [H1 H2].
  destruct (String.eqb w k); [|exact (IH H2)].
  destruct v; [discriminate|reflexivity].
Qed.

Lemma positive_set (w : string) (n : nat) (m : JSMap.t nat) :
  1 <= n -> positive_counts m = true -> positive_counts (JSMap.set w n m) = true.
Proof.
  unfold positive_counts. intros Hn.
  induction m as [|[k v] r IH]; simpl; intros H.
  - destruct n; [lia|reflexivity].
  - apply andb_prop in H as [H1 H2].
    destruct (String.eqb w k); simpl.
    + destruct n; [lia|exact H2].
    + simpl in H1. rewrite H1. simpl. apply IH, H2.
Qed.

Lemma positive_fold_incr (l : list string) (m : JSMap.t nat) :
  positive_counts m = true ->
  positive_counts (fold_left (fun m w => incr w m) l m) = true.
Proof.
  revert m. induction l as [|w r IH]; intros m H; simpl; [exact H|].
  apply IH. unfold incr. apply positive_set; [lia|exact H].
Qed.

Lemma fold_process_positive (c : list TrainItem) (a : Accum) :
  positive_counts (a_documentFrequency a) = true ->
  positive_counts (a_documentFrequency (fold_left processItem c a)) = true.
Proof.
  revert a. induction c as [|i r IH]; intros a H; simpl; [exact H|].
  apply IH. rewrite processItem_eq. destruct (itemFeatures i); [|exact H].
  apply positive_fold_incr, H.
Qed.

Lemma existsb_absent (w : string) (p : string * nat -> bool) (l : JSMap.t nat) :
  JSMap.has w l = false -> existsb (fun e => String.eqb (fst e) w && p e) l = false.
Proof.
  intros H. destruct (existsb _ l) eqn:E; [|reflexivity].
  rewrite (exists_key_has _ _ _ E) in H. discriminate.
Qed.

Lemma existsb_nodup (k : nat) (w : string) (l : JSMap.t nat) :
  JSMap.keys_nodup l = true ->
  existsb (fun e => String.eqb (fst e) w && (k <=? snd e)) l =
  JSMap.has w l && (k <=? JSMap.get0 w l).
Proof.
  induction l as [|[k0 v0] r IH]; simpl; [reflexivity|].
  intros H. apply andb_prop in H as [H1 H2].
  rewrite has_cons. unfold JSMap.get0. simpl.
  destruct (String.eqb_spec k0 w) as [->|Hne].
  - rewrite String.eqb_refl. simpl.
    apply negb_true_iff in H1. rewrite existsb_absent by exact H1.
    apply orb_false_r.
  - assert (E : String.eqb w k0 = false) by (apply String.eqb_neq; congruence).
    rewrite E. simpl. exact (IH H2).
Qed.

Lemma train_df_get0 (m : Model) (c : list TrainItem) (w : string) :
  JSMap.get0 w (documentFrequency (train m c)) = docsContaining w c.
Proof.
  unfold train. destruct c as [|i r]; [reflexivity|].
  cbn [length Nat.eqb documentFrequency]. rewrite fold_process_df. reflexivity.
Qed.

(** After [train], a word is in the vocabulary exactly when at least
    [max 1 minDf] training items contain it. *)
Theorem train_vocabulary_exact (m : Model) (c : list TrainItem) (w : string) :
  JSMap.has w (vocabulary (train m c)) = (Nat.max 1 (minDf m) <=? docsContaining w c).
Proof.
  rewrite <- (train_df_get0 m c w).
  unfold train. destruct c as [|i r]; [destruct (minDf m); reflexivity|].
  cbn [length Nat.eqb vocabulary documentFrequency minDf].
  unfold buildVocabulary. rewrite buildVocabulary_fold_has. simpl JSMap.has.
  rewrite existsb_nodup by (apply fold_process_nodup; reflexivity).
  rewrite (positive_has w (a_documentFrequency (fold_left processItem (i :: r) emptyAccum)))
    by (apply fold_process_positive; reflexivity).
  generalize (JSMap.get0 w (a_documentFrequency (fold_left processItem (i :: r) emptyAccum))) as d.
  intros d. simpl orb.
  destruct (Nat.eqb_spec d 0), (Nat.leb_spec (minDf m) d), (Nat.leb_spec (Nat.max 1 (minDf m)) d);
    simpl; lia.
Qed.

Lemma buildVocabulary_fold_indices (k : nat) (l : JSMap.t nat) (v : JSMap.t nat) (i : nat) :
  JSMap.keys_nodup l = true ->
  (forall x, JSMap.has x v = true -> JSMap.has x l = false) ->
  map snd v = seq 0 i ->
  map snd (fst (fold_left (fun st e =>
          if k <=? snd e then (JSMap.set (fst e) (snd st) (fst st), S (snd st)) else st)
        l (v, i))) =
  seq 0 (snd (fold_left (fun st e =>
          if k <=? snd e then (JSMap.set (fst e) (snd st) (fst st), S (snd st)) else st)
        l (v, i))).
Proof.
  revert v i. induction l as [|[k0 v0] r IH]; intros v i Hn Hv Hs; simpl; [exact Hs|].
  apply andb_prop in Hn as [H1 H2]. apply negb_true_iff in H1.
  assert (Hk : JSMap.has k0 v = false).
  { destruct (JSMap.has k0 v) eqn:E; [|reflexivity].
    apply Hv in E. rewrite has_cons, String.eqb_refl in E. discriminate. }
  assert (Hr : forall x, JSMap.has x v = true -> JSMap.has x r = false).
  { intros x Hx. apply Hv in Hx. rewrite has_cons in Hx. apply orb_false_iff in Hx. apply Hx. }
  destruct (k <=? v0); simpl; apply IH; try assumption.
  - intros x Hx. rewrite has_set in Hx. apply orb_true_iff in Hx as [Hx|Hx].
    + apply String.eqb_eq in Hx. subst x. exact H1.
    + exact (Hr x Hx).
  - rewrite set_absent by exact Hk. rewrite map_app, Hs, seq_S. reflexivity.
Qed.

Lemma map_snd_seq (v : JSMap.t nat) (n : nat) :
  map snd v = seq 0 n -> map snd v = seq 0 (length v).
Proof.
  intros E. assert (L : length v = n) by (rewrite <- (length_map snd v), E, length_seq; reflexivity).
  rewrite L. exact E.
Qed.

Lemma buildVocabulary_indices (k : nat) (df : JSMap.t nat) :
  JSMap.keys_nodup df = true ->
  map snd (buildVocabulary k df) = seq 0 (length (buildVocabulary k df)).
Proof.
  intros H. unfold buildVocabulary. eapply map_snd_seq.
  exact (buildVocabulary_fold_indices k df [] 0 H
           (fun x Hx => False_ind _ (diff_false_true Hx)) eq_refl).
Qed.

(** After [train], the vocabulary indices are 0, 1, ..., size - 1 in
    insertion order. *)
Theorem train_vocabulary_indices (m : Model) (c : list TrainItem) :
  map snd (vocabulary (train m c)) = seq 0 (length (vocabulary (train m c))).
Proof.
  unfold train. destruct c as [|i r]; [reflexivity|].
  cbn [length Nat.eqb vocabulary].
  apply buildVocabulary_indices, fold_process_nodup. reflexivity.
Qed.

Section Weights.
Local Open Scope R_scope.

Lemma ln_ge_0 (x : R) : 1 <= x -> 0 <= ln x.
Proof.
  intros H. destruct (Rle_lt_or_eq_dec 1 x H) as [Hlt|<-].
  - rewrite <- ln_1. left. apply ln_increasing; lra.
  - rewrite ln_1. lra.
Qed.

(** After [train], the IDF of a word no document contains is 0, and the IDF
    of any other word is at least 1. *)
Theorem train_idf_weight (m : Model) (c : list TrainItem) (w : string) :
  (docsContaining w c = 0%nat /\ idf (train m c) w = 0) \/
  ((0 < docsContaining w c)%nat /\ 1 <= idf (train m c) w).
Proof.
  unfold idf. rewrite train_df_get0.
  assert (Hn : totalDocuments (train m c) = length c).
  { unfold train. destruct c; reflexivity. }
  rewrite Hn. pose proof (docsContaining_le w c) as Hle.
  destruct (Nat.eqb_spec (docsContaining w c) 0) as [E|E]; [left; split; [exact E|reflexivity]|].
  right. split; [lia|].
  assert (0 <= ln ((INR (length c) + 1) / (INR (docsContaining w c) + 1))); [|lra].
  apply ln_ge_0. apply le_INR in Hle.
  pose proof (pos_INR (docsContaining w c)).
  apply Rmult_le_reg_r with (INR (docsContaining w c) + 1); [lra|].
  unfold Rdiv. rewrite Rmult_assoc, Rinv_l by lra. lra.
Qed.

Lemma sumR_counts (m : JSMap.t nat) (d : R) :
  sumR (map (fun e => INR (snd e) / d) m) = INR (mapTotal m) / d.
Proof.
  unfold mapTotal. induction m as [|[k v] r IH]; simpl.
  - unfold Rdiv. ring.
  - rewrite IH, plus_INR. unfold Rdiv. ring.
Qed.

Lemma get_map_snd {A B} (w : string) (g : A -> B) (m : JSMap.t A) :
  JSMap.get w (map (fun e => (fst e, g (snd e))) m) = option_map g (JSMap.get w m).
Proof.
  induction m as [|[k v] r IH]; simpl; [reflexivity|].
  destruct (String.eqb w k); [reflexivity|exact IH].
Qed.

(** The term frequencies of a token sequence sum to 1 (0 for no tokens), and
    each is the word's occurrence count divided by the sequence length. *)
Theorem termFrequency_normalised (words : list string) (w : string) :
  sumR (map snd (termFrequency words)) = (match words with [] => 0 | _ => 1 end) /\
  JSMap.get w (termFrequency words) =
    (if (occurrences w words =? 0)%nat then None
     else Some (INR (occurrences w words) / INR (length words))).
Proof.
  assert (Hp : positive_counts (rawCounts words) = true) by (apply positive_fold_incr; reflexivity).
  assert (Hg : JSMap.get0 w (rawCounts words) = occurrences w words)
    by (unfold rawCounts; rewrite fold_incr_get0; reflexivity).
  assert (Ht : mapTotal (rawCounts words) = length words)
    by (unfold rawCounts; rewrite mapTotal_fold; reflexivity).
  unfold termFrequency.
  set (dl := match length words with O => 1%nat | n => n end).
  split.
  - rewrite map_map. cbn [fst snd]. rewrite sumR_counts, Ht.
    destruct words as [|x r]; [simpl; unfold Rdiv; ring|].
    apply Rdiv_diag. apply not_0_INR. discriminate.
  - rewrite (get_map_snd w (fun x => INR x / INR dl)), positive_get, Hg by exact Hp.
    destruct (occurrences w words =? 0)%nat eqn:E; [reflexivity|].
    destruct words as [|x r]; [discriminate|reflexivity].
Qed.

End Weights.

End TrainingCounts.

Lemma withConfig_same (m : Model) : withConfig m (alpha m) (minDf m) = m.
Proof. destruct m. reflexivity. Qed.

(** Serializing a model imported from a trained model's snapshot gives the
    snapshot back, whatever model it is imported into. *)
Theorem snapshot_roundtrip (m : Model) (c : list TrainItem) (m' : Model) :
  serialize (deserialize m' (Some (serialize (train m c)))) = serialize (train m c).
Proof.
  pose proof (wf_train m c) as H. unfold wf_model in H.
  apply andb_prop in H as [H H4]. apply andb_prop in H as [H H3].
  apply andb_prop in H as [H1 H2].
  unfold deserialize, serialize at 2, JSMap.entries.
  cbn [or_default s_vocabulary s_documentFrequency s_totalDocuments s_classDocCount
       s_classWordCounts s_classTotalWords s_isTrained spam ham].
  rewrite !JSMapFacts.of_entries_nodup by assumption.
  unfold serialize, JSMap.entries. cbn [vocabulary documentFrequency totalDocuments classDocCount
    classWordCounts classTotalWords isTrained spam ham].
  reflexivity.
Qed.

(** A snapshot without an [isTrained] field imports as an untrained model,
    which predicts the unknown result on every input. *)
Theorem deserialize_missing_flag (m : Model) (d : Snapshot) (x : Input) :
  s_isTrained d = None -> predict (deserialize m (Some d)) x = unknownResult.
Proof. intros H. unfold predict, deserialize. rewrite H. reflexivity. Qed.

Lemma deserialize_missing_flag_witness :
  s_isTrained (mkSnapshot (Some [("aa", 0)]) None None None None None None) = None /\
  predict (deserialize (train fresh corpusA) (Some (mkSnapshot (Some [("aa", 0)]) None None None None None None)))
    (InText "aa") = unknownResult.
Proof.
  split; [reflexivity|].
  apply (deserialize_missing_flag (train fresh corpusA)
           (mkSnapshot (Some [("aa", 0)]) None None None None None None) (InText "aa")).
  reflexivity.
Defined.

(** The [addTrainingData] handler appends the sample, retrains on the whole
    list and stores a snapshot that [initialize] loads back into the same
    classifier (for the default smoothing settings). *)
Theorem addTrainingData_persisted (st : BgState) (msg : TrainingMessage) :
  alpha (classifier st) = 1%R -> minDf (classifier st) = 2 ->
  let st' := addTrainingData st msg in
  isTrained (classifier st') = true /\
  trainingData st' = trainingData st ++ [newSample msg] /\
  totalDocuments (classifier st') = S (length (trainingData st)) /\
  loadStoredModel (storedModel st') = Some (classifier st').
Proof.
  intros Ha Hk st'. subst st'. unfold addTrainingData, saveClassifierModel, trainClassifier.
  cbn [trainingData classifier storedModel].
  assert (Hl : (length (trainingData st ++ [newSample msg]) =? 0) = false)
    by (rewrite length_app, Nat.add_1_r; reflexivity).
  assert (Ht : isTrained (train (classifier st) (trainingData st ++ [newSample msg])) = true)
    by (unfold train; rewrite Hl; reflexivity).
  split; [exact Ht|]. split; [reflexivity|]. split.
  - unfold train. rewrite Hl. cbn [totalDocuments]. rewrite length_app, Nat.add_1_r. reflexivity.
  - unfold loadStoredModel. cbn [s_isTrained serialize or_default]. rewrite Ht.
    rewrite deserialize_serialize by apply wf_train.
    f_equal. rewrite <- Ha, <- Hk.
    assert (Hc : forall c, alpha (train (classifier st) c) = alpha (classifier st) /\
                          minDf (train (classifier st) c) = minDf (classifier st))
      by (intros c; unfold train; destruct (length c =? 0); split; reflexivity).
    destruct (Hc (trainingData st ++ [newSample msg])) as [E1 E2].
    rewrite <- E1, <- E2 at 1. apply withConfig_same.
Qed.

Section Retrain.
Local Open Scope R_scope.

Lemma logProb_symmetric (m : Model) (v : JSMap.t R) :
  pc_get Spam (classDocCount m) = pc_get Ham (classDocCount m) ->
  pc_get Spam (classWordCounts m) = pc_get Ham (classWordCounts m) ->
  pc_get Spam (classTotalWords m) = pc_get Ham (classTotalWords m) ->
  logProb m Spam v = logProb m Ham v.
Proof. intros H1 H2 H3. unfold logProb. rewrite H1, H2, H3. reflexivity. Qed.

Lemma classify_tie (m : Model) (v : JSMap.t R) :
  logProb m Spam v = logProb m Ham v ->
  classify m v = mkPrediction "ham" (1/2) [("spam", 1/2); ("ham", 1/2)].
Proof.
  intros H. unfold classify. rewrite H. cbv zeta.
  rewrite Rmax_left by lra. rewrite Rminus_diag, exp_0.
  replace (1 / (1 + 1)) with (1 / 2) by field.
  destruct (Rlt_dec (1 / 2) (1 / 2)) as [Hc|_]; [lra|reflexivity].
Qed.

(** The [retrainClassifier] handler given an empty array clears the model but
    keeps [isTrained] set: the empty vocabulary predicts ham at 1/2 for
    every input. *)
Theorem retrain_empty_list (st : BgState) (x : Input) :
  isTrained (classifier st) = true ->
  let m := classifier (retrainClassifier st (Some [])) in
  isTrained m = true /\ vocabulary m = [] /\
  predict m x = mkPrediction "ham" (1/2) [("spam", 1/2); ("ham", 1/2)].
Proof.
  intros Ht m. subst m. unfold retrainClassifier, saveClassifierModel, trainClassifier.
  cbn [classifier trainingData]. rewrite train_nil. cbn [isTrained vocabulary].
  split; [exact Ht|]. split; [reflexivity|].
  unfold predict. cbn [isTrained]. rewrite Ht. cbn [negb].
  apply classify_tie, logProb_symmetric; reflexivity.
Qed.

End Retrain.

Section Ranking.
Local Open Scope R_scope.

Lemma insertByScore_perm (x : string * R) (l : list (string * R)) :
  Permutation (insertByScore x l) (x :: l).
Proof.
  induction l as [|y r IH]; simpl; [reflexivity|].
  destruct (Rle_dec (snd y) (snd x)); [reflexivity|].
  eapply perm_trans; [apply perm_skip, IH|apply perm_swap].
Qed.

Lemma sortByScore_perm (l : list (string * R)) : Permutation (sortByScore l) l.
Proof.
  induction l as [|x r IH]; simpl; [reflexivity|].
  eapply perm_trans; [apply insertByScore_perm|apply perm_skip, IH].
Qed.

Lemma insertByScore_sorted (x : string * R) (l : list (string * R)) :
  StronglySorted geScore l -> StronglySorted geScore (insertByScore x l).
Proof.
  induction l as [|y r IH]; simpl; intros H.
  - repeat constructor.
  - apply StronglySorted_inv in H as [Hr Hy].
    destruct (Rle_dec (snd y) (snd x)) as [Hle|Hgt].
    + constructor; [constructor; assumption|].
      constructor; [exact Hle|].
      rewrite Forall_forall in *. intros z Hz. unfold geScore in *.
      specialize (Hy z Hz). lra.
    + constructor; [apply IH, Hr|].
      rewrite Forall_forall in *. intros z Hz.
      apply (Permutation_in _ (insertByScore_perm x r)) in Hz.
      destruct Hz as [<-|Hz]; [unfold geScore; lra|exact (Hy z Hz)].
Qed.

Lemma sortByScore_sorted (l : list (string * R)) : StronglySorted geScore (sortByScore l).
Proof.
  induction l as [|x r IH]; simpl; [constructor|]. apply insertByScore_sorted, IH.
Qed.

Lemma sorted_app_l (a b : list (string * R)) :
  StronglySorted geScore (a ++ b) -> StronglySorted geScore a.
Proof.
  induction a as [|x r IH]; simpl; intros H; [constructor|].
  apply StronglySorted_inv in H as [Hr Hx]. constructor; [apply IH, Hr|].
  rewrite Forall_forall in *. intros z Hz. apply Hx, in_or_app. left. exact Hz.
Qed.

Lemma sorted_app_between (a b : list (string * R)) (e e' : string * R) :
  StronglySorted geScore (a ++ b) -> In e a -> In e' b -> snd e' <= snd e.
Proof.
  induction a as [|x r IH]; simpl; intros H Ha Hb; [contradiction|].
  apply StronglySorted_inv in H as [Hr Hx]. destruct Ha as [<-|Ha].
  - rewrite Forall_forall in Hx. apply (Hx e'), in_or_app. right. exact Hb.
  - exact (IH Hr Ha Hb).
Qed.

Lemma in_firstn_in {A} (n : nat) (e : A) (l : list A) : In e (firstn n l) -> In e l.
Proof. intros H. rewrite <- (firstn_skipn n l). apply in_or_app. left. exact H. Qed.

(** [getTopFeatures] returns at most n in-vocabulary TF-IDF entries sorted by
    decreasing score, and no skipped in-vocabulary entry scores above a
    returned one. *)
Theorem getTopFeatures_ranking (toFixed4 : R -> string) (m : Model) (x : Input) (n : nat) :
  map word (getTopFeatures toFixed4 m x n) = map fst (rankedFeatures m x n) /\
  (length (rankedFeatures m x n) <= n)%nat /\
  StronglySorted geScore (rankedFeatures m x n) /\
  (forall e, In e (rankedFeatures m x n) ->
     In e (tfidfFromFeatures m (inputFeatures x)) /\ JSMap.has (fst e) (vocabulary m) = true) /\
  (forall e e', In e (rankedFeatures m x n) -> In e' (tfidfFromFeatures m (inputFeatures x)) ->
     JSMap.has (fst e') (vocabulary m) = true -> ~ In e' (rankedFeatures m x n) ->
     snd e' <= snd e).
Proof.
  set (l := filter (fun e : string * R => JSMap.has (fst e) (vocabulary m))
                   (tfidfFromFeatures m (inputFeatures x))).
  assert (Hs : StronglySorted geScore (firstn n (sortByScore l) ++ skipn n (sortByScore l)))
    by (rewrite firstn_skipn; apply sortByScore_sorted).
  unfold rankedFeatures. fold l.
  split; [unfold getTopFeatures, rankedFeatures; rewrite map_map; reflexivity|].
  split; [apply firstn_le_length|].
  split; [exact (sorted_app_l _ _ Hs)|].
  split.
  - intros e He. apply in_firstn_in in He.
    apply (Permutation_in _ (sortByScore_perm l)) in He.
    apply filter_In in He. exact He.
  - intros e e' He He' Hv Hn. apply (sorted_app_between _ _ e e' Hs He).
    assert (Hl : In e' (sortByScore l)).
    { apply (Permutation_in _ (Permutation_sym (sortByScore_perm l))).
      apply filter_In. split; assumption. }
    rewrite <- (firstn_skipn n (sortByScore l)) in Hl.
    apply in_app_or in Hl as [Hl|Hl]; [contradiction|exact Hl].
Qed.

End Ranking.

Lemma upper_lower_char (c : ascii) : upper_units (lower_char c) = upper_units c.
Proof.
  destruct c as [b0 b1 b2 b3 b4 b5 b6 b7].
  destruct b0, b1, b2, b3, b4, b5, b6, b7; vm_compute; reflexivity.
Qed.

Lemma upper_lower (s : string) : toUpperCase (toLowerCase s) = toUpperCase s.
Proof.
  unfold toUpperCase. induction s as [|c r IH]; simpl; [reflexivity|].
  rewrite upper_lower_char, IH. reflexivity.
Qed.

Lemma get_map_values {A B} (w : string) (g : A -> B) (m : JSMap.t A) :
  JSMap.get w (map (fun e => (fst e, g (snd e))) m) = option_map g (JSMap.get w m).
Proof.
  induction m as [|[k v] r IH]; simpl; [reflexivity|].
  destruct (String.eqb w k); [reflexivity|exact IH].
Qed.

Lemma existsb_ext {A} (f g : A -> bool) (l : list A) :
  (forall x, In x l -> f x = g x) -> existsb f l = existsb g l.
Proof.
  induction l as [|x r IH]; simpl; intros H; [reflexivity|].
  rewrite H by (left; reflexivity). rewrite IH by (intros y Hy; apply H; right; exact Hy).
  reflexivity.
Qed.

(** On header values of Latin-1 characters (the strings of this model),
    [hasSpamHeader] ignores their letter case: lowercasing every value does
    not change the verdict. *)
Theorem hasSpamHeader_case_insensitive (headers : Headers) :
  hasSpamHeader (map (fun e => (fst e, map toLowerCase (snd e))) headers) = hasSpamHeader headers.
Proof.
  unfold hasSpamHeader. apply existsb_ext. intros check _.
  rewrite (get_map_values (fst check) (map toLowerCase)).
  destruct (JSMap.get (fst check) headers) as [vs|]; [|reflexivity]. simpl.
  induction vs as [|v r IH]; simpl; [reflexivity|].
  rewrite upper_lower, IH. reflexivity.
Qed.

Lemma starts_with_app (n t : list nat) : starts_with n (n ++ t) = true.
Proof. induction n as [|x r IH]; simpl; [reflexivity|]. rewrite Nat.eqb_refl, IH. reflexivity. Qed.

Lemma includes_app (a n b : list nat) : includes (a ++ n ++ b) n = true.
Proof.
  induction a as [|x r IH]; simpl.
  - destruct n as [|y n]; [destruct b; reflexivity|].
    destruct b as [|z b]; simpl; rewrite Nat.eqb_refl, starts_with_app; reflexivity.
  - rewrite IH. apply orb_true_r.
Qed.

Lemma toUpperCase_append (a b : string) :
  toUpperCase (String.append a b) = toUpperCase a ++ toUpperCase b.
Proof.
  unfold toUpperCase. induction a as [|c r IH]; simpl; [reflexivity|].
  rewrite IH, app_assoc. reflexivity.
Qed.

(** [hasSpamHeader] flags any [x-spam-status] value containing "yes" in any
    letter case anywhere, e.g. a status "No" whose test list names bayes_00. *)
Theorem hasSpamHeader_status_substring (headers : Headers) (values : list string) (a y b : string) :
  JSMap.get "x-spam-status" headers = Some values ->
  toUpperCase y = toUpperCase "YES" ->
  In (String.append a (String.append y b)) values ->
  hasSpamHeader headers = true.
Proof.
  intros Hg Hy Hin. unfold hasSpamHeader. simpl existsb. cbn [fst snd]. rewrite Hg.
  assert (E : existsb (fun value => includes (toUpperCase value) (toUpperCase "Yes")) values = true).
  { apply existsb_exists. eexists; split; [exact Hin|].
    rewrite !toUpperCase_append, Hy.
    change (toUpperCase "YES") with (toUpperCase "Yes"). apply includes_app. }
  rewrite E. reflexivity.
Qed.

Lemma hasSpamHeader_status_substring_witness :
  JSMap.get "x-spam-status" [("x-spam-status", ["No, tests=bayes_00"])] = Some ["No, tests=bayes_00"] /\
  toUpperCase "yes" = toUpperCase "YES" /\
  In (String.append "No, tests=ba" (String.append "yes" "_00")) ["No, tests=bayes_00"] /\
  hasSpamHeader [("x-spam-status", ["No, tests=bayes_00"])] = true.
Proof.
  split; [reflexivity|]. split; [reflexivity|]. split; [left; reflexivity|].
  apply (hasSpamHeader_status_substring _ ["No, tests=bayes_00"] "No, tests=ba" "yes" "_00");
    [reflexivity|reflexivity|left; reflexivity].
Defined.

Lemma span_app_stop (p : ascii -> bool) (e : string) (c : ascii) (r : string) :
  forallb p (list_ascii_of_string e) = true -> p c = false ->
  span p (String.append e (String c r)) = (e, String c r).
Proof.
  induction e as [|x e IH]; simpl; intros H Hc; [rewrite Hc; reflexivity|].
  apply andb_prop in H as [H1 H2]. rewrite H1, IH by assumption. reflexivity.
Qed.

Lemma append_assoc_char (a : string) (c : ascii) (r : string) :
  String.append (String.append a (String c "")) r = String.append a (String c r).
Proof. induction a as [|x a IH]; simpl; [reflexivity|]. rewrite IH. reflexivity. Qed.

Lemma append_cons (c : ascii) (a b : string) :
  String.append (String c a) b = String c (String.append a b).
Proof. reflexivity. Qed.

Lemma lazy_split_cons (pre : string) (c : ascii) (r : string) :
  lazy_split pre (String c r) =
  if is_line_terminator c then None
  else match angle_tail r with
       | Some e => Some (String.append pre (String c ""), e)
       | None => lazy_split (String.append pre (String c "")) r
       end.
Proof. reflexivity. Qed.

Lemma append_empty (b : string) : String.append "" b = b.
Proof. reflexivity. Qed.

Lemma forallb_weaken {A} (f g : A -> bool) (l : list A) :
  (forall x, f x = true -> g x = true) -> forallb f l = true -> forallb g l = true.
Proof.
  intros H. induction l as [|x r IH]; simpl; [reflexivity|].
  intros Hl. apply andb_prop in Hl as [H1 H2]. rewrite (H x H1), (IH H2). reflexivity.
Qed.

Lemma list_ascii_append (a b : string) :
  list_ascii_of_string (String.append a b) = list_ascii_of_string a ++ list_ascii_of_string b.
Proof. induction a as [|c r IH]; simpl; [reflexivity|]. rewrite IH. reflexivity. Qed.

Lemma drop_while_app (p : ascii -> bool) (a b : list ascii) :
  drop_while p (a ++ b) = match drop_while p a with [] => drop_while p b | l => l ++ b end.
Proof.
  induction a as [|c r IH]; [reflexivity|]. cbn [app drop_while].
  destruct (p c); [exact IH|reflexivity].
Qed.

Lemma drop_while_all (p : ascii -> bool) (a : list ascii) :
  forallb p a = true -> drop_while p a = [].
Proof.
  induction a as [|c r IH]; [reflexivity|]. cbn [forallb drop_while].
  intros H. apply andb_prop in H as [H1 H2]. rewrite H1. apply IH, H2.
Qed.

Lemma forallb_rev {A} (p : A -> bool) (l : list A) : forallb p (rev l) = forallb p l.
Proof.
  induction l as [|x r IH]; [reflexivity|]. cbn [rev forallb].
  rewrite forallb_app, IH. cbn [forallb]. rewrite andb_true_r, andb_comm. reflexivity.
Qed.

(** Whitespace after a string changes nothing after [trim] *)
Lemma trim_app_spaces (n w : string) :
  forallb is_space (list_ascii_of_string w) = true ->
  trim (String.append n w) = trim n.
Proof.
  intros Hw. unfold trim. rewrite list_ascii_append, drop_while_app.
  destruct (drop_while is_space (list_ascii_of_string n)) as [|c l] eqn:E.
  - rewrite (drop_while_all is_space (list_ascii_of_string w) Hw). reflexivity.
  - rewrite rev_app_distr, drop_while_app, drop_while_all by (rewrite forallb_rev; exact Hw).
    reflexivity.
Qed.

Lemma trim_spaces (n : string) :
  forallb is_space (list_ascii_of_string n) = true -> trim n = "".
Proof. intros H. unfold trim. rewrite (drop_while_all is_space (list_ascii_of_string n) H). reflexivity. Qed.

(** [\s*<([^>]+)>$] after any run of whitespace *)
Lemma angle_tail_spaces (w e : string) :
  forallb is_space (list_ascii_of_string w) = true ->
  e <> "" -> forallb (fun c => negb (Ascii.eqb c ">")) (list_ascii_of_string e) = true ->
  angle_tail (String.append w (String "<" (String.append e ">"))) = Some e.
Proof.
  intros Hw He Hf. unfold angle_tail.
  rewrite span_app_stop by (assumption || reflexivity). cbv [snd].
  cbn [Ascii.eqb Bool.eqb].
  rewrite span_app_stop by (assumption || reflexivity).
  destruct e; [congruence|reflexivity].
Qed.

(** A first non-space character that is not [<] blocks the tail *)
Lemma angle_tail_nonspace (n rest : string) :
  forallb (fun c => negb (Ascii.eqb c "<")) (list_ascii_of_string n) = true ->
  forallb is_space (list_ascii_of_string n) = false ->
  angle_tail (String.append n rest) = None.
Proof.
  unfold angle_tail. induction n as [|c n IH]; [discriminate 2|].
  simpl list_ascii_of_string. intros H1 H2. apply andb_prop in H1 as [Hc Hn].
  simpl String.append. simpl span. cbn [forallb] in H2.
  destruct (is_space c) eqn:Ec.
  - specialize (IH Hn H2). destruct (span is_space (String.append n rest)). exact IH.
  - cbv [snd]. apply negb_true_iff in Hc. rewrite Hc. reflexivity.
Qed.

(** The lazy group stops at the last non-space character of the name, or
    after one character when the name is all whitespace. *)
Lemma lazy_split_group (pre n e : string) :
  forallb (fun c => negb (Ascii.eqb c "<") && negb (is_line_terminator c)) (list_ascii_of_string n) = true ->
  e <> "" -> forallb (fun c => negb (Ascii.eqb c ">")) (list_ascii_of_string e) = true ->
  exists g, lazy_split pre (String.append n (String.append " <" (String.append e ">"))) =
            Some (String.append pre g, e) /\
            ((forallb is_space (list_ascii_of_string n) = true /\
              forallb is_space (list_ascii_of_string g) = true) \/
             (exists w, n = String.append g w /\ forallb is_space (list_ascii_of_string w) = true)).
Proof.
  intros Hn He Hf. revert pre Hn.
  induction n as [|c n IH]; intros pre Hn.
  - exists " ". split; [|left; split; reflexivity].
    rewrite append_empty. change (String.append " <" (String.append e ">"))
      with (String " " (String "<" (String.append e ">"))).
    rewrite lazy_split_cons. cbn [is_line_terminator code nat_of_ascii].
    change (String "<" (String.append e ">")) with (String.append "" (String "<" (String.append e ">"))).
    rewrite angle_tail_spaces by (reflexivity || assumption). reflexivity.
  - simpl list_ascii_of_string in Hn. apply andb_prop in Hn as [Hc Hn].
    apply andb_prop in Hc as [Hlt Hterm]. apply negb_true_iff in Hterm.
    rewrite append_cons, lazy_split_cons, Hterm.
    destruct (forallb is_space (list_ascii_of_string n)) eqn:Es.
    + change (String.append " <" (String.append e ">"))
        with (String " " (String "<" (String.append e ">"))).
      rewrite <- append_assoc_char.
      rewrite angle_tail_spaces; [|rewrite list_ascii_append, forallb_app, Es; reflexivity|assumption|assumption].
      exists (String c ""). split; [reflexivity|].
      destruct (is_space c) eqn:Ec.
      * left. cbn [list_ascii_of_string forallb]. rewrite Ec, Es. split; reflexivity.
      * right. exists n. split; [reflexivity|exact Es].
    + rewrite angle_tail_nonspace; [| |exact Es].
      2: { eapply forallb_weaken; [|exact Hn]. intros x Hx. apply andb_prop in Hx as [Hx _]. exact Hx. }
      destruct (IH (String.append pre (String c "")) Hn) as [g [Hg Hcase]].
      exists (String c g). rewrite Hg, append_assoc_char. split; [reflexivity|].
      destruct Hcase as [[Hs _]|[w [-> Hw]]]; [congruence|].
      right. exists w. split; [reflexivity|exact Hw].
Qed.

(** [parseSender] splits [Name <address>] into the trimmed name and the
    trimmed address, for any name without [<] or line breaks (leading and
    trailing whitespace and an empty name included). *)
Theorem parseSender_angle_form (n e : string) :
  forallb (fun c => negb (Ascii.eqb c "<") && negb (is_line_terminator c)) (list_ascii_of_string n) = true ->
  e <> "" -> forallb (fun c => negb (Ascii.eqb c ">")) (list_ascii_of_string e) = true ->
  parseSender (Some (String.append n (String.append " <" (String.append e ">")))) =
  mkSender (trim n) (trim e).
Proof.
  intros Hn He Hf. unfold parseSender, match_sender.
  assert (Ht : truthy (Some (String.append n (String.append " <" (String.append e ">")))) =
               Some (String.append n (String.append " <" (String.append e ">"))))
    by (destruct n; reflexivity).
  rewrite Ht. destruct (lazy_split_group "" n e Hn He Hf) as [g [Hg Hcase]].
  rewrite Hg, append_empty. f_equal.
  destruct Hcase as [[H1 H2]|[w [-> Hw]]].
  - rewrite !trim_spaces by assumption. reflexivity.
  - symmetry. apply trim_app_spaces, Hw.
Qed.

Lemma parseSender_angle_form_witness :
  forallb (fun c => negb (Ascii.eqb c "<") && negb (is_line_terminator c)) (list_ascii_of_string " Jane Doe  ") = true /\
  "jane@example.org" <> "" /\
  forallb (fun c => negb (Ascii.eqb c ">")) (list_ascii_of_string "jane@example.org") = true /\
  parseSender (Some (String.append " Jane Doe  " (String.append " <" (String.append "jane@example.org" ">")))) =
  mkSender (trim " Jane Doe  ") (trim "jane@example.org").
Proof.
  split; [reflexivity|]. split; [discriminate|]. split; [reflexivity|].
  apply parseSender_angle_form; [reflexivity|discriminate|reflexivity].
Defined.

Lemma angle_tail_no_lt (r : string) :
  forallb (fun c => negb (Ascii.eqb c "<")) (list_ascii_of_string r) = true -> angle_tail r = None.
Proof.
  unfold angle_tail. induction r as [|c r IH]; [reflexivity|].
  simpl list_ascii_of_string. intros H. apply andb_prop in H as [Hc Hr].
  simpl span. destruct (is_space c).
  - specialize (IH Hr). destruct (span is_space r). exact IH.
  - cbv [snd]. apply negb_true_iff in Hc. rewrite Hc. reflexivity.
Qed.

Lemma lazy_split_no_lt (pre a : string) :
  forallb (fun c => negb (Ascii.eqb c "<")) (list_ascii_of_string a) = true -> lazy_split pre a = None.
Proof.
  revert pre. induction a as [|c r IH]; intros pre H; [reflexivity|].
  simpl list_ascii_of_string in H. apply andb_prop in H as [_ Hr].
  rewrite lazy_split_cons, angle_tail_no_lt by exact Hr.
  destruct (is_line_terminator c); [reflexivity|]. apply IH, Hr.
Qed.

(** [parseSender] reads an author with an [@] and no [<] as a bare address
    with an empty name. *)
Theorem parseSender_bare_address (a : string) :
  forallb (fun c => negb (Ascii.eqb c "<")) (list_ascii_of_string a) = true ->
  existsb (fun c => Ascii.eqb c "@") (list_ascii_of_string a) = true ->
  parseSender (Some a) = mkSender "" (trim a).
Proof.
  intros Hl Ha. unfold parseSender, match_sender.
  assert (Ht : truthy (Some a) = Some a) by (destruct a; [discriminate|reflexivity]).
  rewrite Ht, lazy_split_no_lt, Ha by exact Hl. reflexivity.
Qed.

Lemma parseSender_bare_address_witness :
  forallb (fun c => negb (Ascii.eqb c "<")) (list_ascii_of_string " bob@example.com ") = true /\
  existsb (fun c => Ascii.eqb c "@") (list_ascii_of_string " bob@example.com ") = true /\
  parseSender (Some " bob@example.com ") = mkSender "" (trim " bob@example.com ").
Proof.
  split; [reflexivity|]. split; [reflexivity|].
  apply parseSender_bare_address; reflexivity.
Defined.

Section Decision.
Local Open Scope R_scope.

Lemma predict_spam_label (m : Model) (x : Input) :
  isTrained m = true ->
  exists ps, scoreOf "spam" (predict m x) = Some ps /\
             p_label (predict m x) = (if Rlt_dec (1/2) ps then "spam" else "ham").
Proof.
  intros Ht. rewrite (predict_trained m x Ht).
  destruct (classify_scores m (tfidfFromFeatures m (inputFeatures x))) as (Hs & Hl & _).
  cbv zeta in Hs, Hl.
  set (ls := logProb m Spam _) in *. set (lh := logProb m Ham _) in *.
  set (M := Rmax ls lh) in *.
  pose proof (normalised_sum (ls - M) (lh - M)) as Hsum.
  eexists. split; [unfold scoreOf; rewrite Hs; reflexivity|].
  rewrite Hl.
  destruct (Rlt_dec _ _) as [H1|H1], (Rlt_dec _ _) as [H2|H2]; try reflexivity; lra.
Qed.

Lemma moveToSpam_cases (env : MessageEnv) (msg : Message) (st : Stats) :
  (moveToSpam env msg st = Some st) \/
  (moveToSpam env msg st = Some (mkStats (scannedCount st) (S (movedCount st))) /\
   exists p, spamFolderPath env = Some p /\ p <> folderPath msg) \/
  (moveToSpam env msg st = None /\ moveResolves env = false).
Proof.
  unfold moveToSpam. destruct (spamFolderPath env) as [p|]; [|left; reflexivity].
  destruct (String.eqb_spec (folderPath msg) p) as [E|E]; [left; reflexivity|].
  destruct (moveResolves env) eqn:R; [right; left|right; right]; split; try reflexivity.
  exists p. split; [reflexivity|congruence].
Qed.

End Decision.

Section Decision2.
Local Open Scope R_scope.

Lemma moveToSpam_resolves (env : MessageEnv) (msg : Message) (st : Stats) :
  moveResolves env = true -> exists st', moveToSpam env msg st = Some st'.
Proof.
  intros Hm. destruct (moveToSpam_cases env msg st) as [H|[[H _]|[_ H]]]; eauto; congruence.
Qed.

(** Without a spam header and with a working move, [checkAndMoveMessage]
    returns the model verdict with probability p exactly when scanning and
    the model are on, the spam score is p, p > 1/2 and p reaches
    [mlThreshold]. *)
Theorem checkAndMove_ml_verdict (toFixed4 : R -> string) (s : Settings) (m : Model) (stats : Stats)
    (env : MessageEnv) (msg : Message) (collectOnly : bool) (ps : R) :
  hasSpamHeader (headers env) = false -> moveResolves env = true ->
  (exists top, fst (checkAndMoveMessage toFixed4 s m stats env msg collectOnly) = MLSpam ps top) <->
  (enabled s && useMLClassifier s && isTrained m = true /\
   scoreOf "spam" (predict m (InEmail (messageEmailData msg (bodyText env)))) = Some ps /\
   1/2 < ps /\ mlThreshold s <= ps).
Proof.
  intros Hh Hm. unfold checkAndMoveMessage.
  destruct (enabled s); cbn [negb andb];
    [|split; [intros [top H]; discriminate H|intros (H & _); discriminate H]].
  rewrite Hh. destruct (useMLClassifier s && isTrained m) eqn:Eu;
    [|split; [intros [top H]; discriminate H|intros (H & _); discriminate H]].
  assert (Ht : isTrained m = true) by (apply andb_prop in Eu; tauto).
  destruct (predict_spam_label m (InEmail (messageEmailData msg (bodyText env))) Ht) as (p0 & Hs & Hl).
  cbv zeta. rewrite Hs, Hl. unfold Rle_bool.
  destruct (Rlt_dec (1/2) p0) as [Hlt|Hge]; destruct (Rle_dec (mlThreshold s) p0) as [Hle|Hgt];
    cbn [String.eqb Ascii.eqb Bool.eqb andb].
  - destruct (negb collectOnly && autoScan s && _).
    + destruct (moveToSpam_resolves env msg (mkStats (S (scannedCount stats)) (movedCount stats)) Hm)
        as [st' ->].
      split; [intros [top H]; cbn [fst] in H; injection H as <- _; repeat split; assumption|].
      intros (_ & H & _). injection H as <-. eexists. reflexivity.
    + split; [intros [top H]; cbn [fst] in H; injection H as <- _; repeat split; assumption|].
      intros (_ & H & _). injection H as <-. eexists. reflexivity.
  - split; [intros [top H]; discriminate H|intros (_ & H & _ & H2); injection H as <-; lra].
  - split; [intros [top H]; discriminate H|intros (_ & H & H2 & _); injection H as <-; lra].
  - split; [intros [top H]; discriminate H|intros (_ & H & H2 & _); injection H as <-; lra].
Qed.

Lemma moved_from (env : MessageEnv) (msg : Message) (st st' : Stats) :
  moveToSpam env msg st = Some st' ->
  st' = st \/ (st' = mkStats (scannedCount st) (S (movedCount st)) /\
               exists p, spamFolderPath env = Some p /\ p <> folderPath msg).
Proof.
  intros H. destruct (moveToSpam_cases env msg st) as [E|[[E Hp]|[E _]]]; rewrite E in H;
    [left|right|discriminate]; injection H as <-; [reflexivity|split; [reflexivity|exact Hp]].
Qed.

(** [checkAndMoveMessage] counts a message as scanned exactly when enabled,
    and counts a move only for a message outside the spam folder that was
    not only collected, flagged by a header or by the model at or above the
    auto-move threshold with [autoScan] on. *)
Theorem checkAndMove_stats (toFixed4 : R -> string) (s : Settings) (m : Model) (stats : Stats)
    (env : MessageEnv) (msg : Message) (collectOnly : bool) :
  let r := checkAndMoveMessage toFixed4 s m stats env msg collectOnly in
  scannedCount (snd r) = (scannedCount stats + (if enabled s then 1 else 0))%nat /\
  (movedCount (snd r) = movedCount stats \/
   (movedCount (snd r) = S (movedCount stats) /\ enabled s = true /\ collectOnly = false /\
    (exists p, spamFolderPath env = Some p /\ p <> folderPath msg) /\
    (hasSpamHeader (headers env) = true \/
     exists ps top, fst r = MLSpam ps top /\ autoScan s = true /\
                    or_num (autoMoveThreshold s) (99 / 100) <= ps))).
Proof.
  intros r. subst r. unfold checkAndMoveMessage.
  destruct (enabled s) eqn:Ee; cbn [negb]; [|split; [simpl; lia|left; reflexivity]].
  set (st1 := mkStats (S (scannedCount stats)) (movedCount stats)).
  destruct (hasSpamHeader (headers env)) eqn:Eh.
  - destruct collectOnly; [split; [simpl; lia|left; reflexivity]|].
    destruct (moveToSpam env msg st1) as [st'|] eqn:Em; [|split; [simpl; lia|left; reflexivity]].
    destruct (moved_from env msg st1 st' Em) as [->|[-> Hp]]; cbn [snd];
      [split; [simpl; lia|left; reflexivity]|].
    split; [simpl; lia|right]. repeat split; auto.
  - destruct (useMLClassifier s && isTrained m); [|split; [simpl; lia|left; reflexivity]].
    cbv zeta.
    destruct (scoreOf "spam" _) as [ps|]; [|split; [simpl; lia|left; reflexivity]].
    destruct (String.eqb _ "spam" && Rle_bool (mlThreshold s) ps);
      [|split; [simpl; lia|left; reflexivity]].
    destruct (negb collectOnly && autoScan s && Rle_bool _ ps) eqn:Ea;
      [|split; [simpl; lia|left; reflexivity]].
    destruct (moveToSpam env msg st1) as [st'|] eqn:Em; [|split; [simpl; lia|left; reflexivity]].
    destruct (moved_from env msg st1 st' Em) as [->|[-> Hp]]; cbn [snd fst];
      [split; [simpl; lia|left; reflexivity]|].
    apply andb_prop in Ea as [Ea Hps]. apply andb_prop in Ea as [Hc Ha].
    apply negb_true_iff in Hc. unfold Rle_bool in Hps.
    destruct (Rle_dec _ ps) as [Hle|]; [|discriminate].
    split; [simpl; lia|right]. repeat split; auto.
    right. eexists; eexists. split; [reflexivity|split; assumption].
Qed.

(** When moving a header-flagged message fails, [checkAndMoveMessage]
    reports it as not spam, with the message counted as scanned and no move
    counted. *)
Theorem checkAndMove_failed_move (toFixed4 : R -> string) (s : Settings) (m : Model) (stats : Stats)
    (env : MessageEnv) (msg : Message) (p : string) :
  enabled s = true -> hasSpamHeader (headers env) = true ->
  spamFolderPath env = Some p -> p <> folderPath msg -> moveResolves env = false ->
  checkAndMoveMessage toFixed4 s m stats env msg false =
  (NotSpam, mkStats (S (scannedCount stats)) (movedCount stats)).
Proof.
  intros He Hh Hp Hne Hm. unfold checkAndMoveMessage, moveToSpam.
  rewrite He, Hh, Hp, Hm. cbn [negb].
  destruct (String.eqb_spec (folderPath msg) p) as [E|E]; [congruence|reflexivity].
Qed.

End Decision2.

Lemma scanVisits_length : forall f, length (scanVisits f) = 1 + subFolderCount f.
Proof.
  fix IH 1. intros [n p t [s|]]; [|reflexivity].
  cbn [scanVisits subFolderCount length Nat.add]. f_equal.
  revert s. fix IH2 1. intros [|g r]; [reflexivity|].
  cbn [map concat length]. rewrite length_app, IH, IH2. cbn [length]. lia.
Qed.

Lemma countFoldersRecursive_visits (fs : list Folder) :
  countFoldersRecursive fs = length (concat (map scanVisits fs)).
Proof.
  unfold countFoldersRecursive. induction fs as [|f r IH]; [reflexivity|].
  cbn [map concat length fold_right]. rewrite length_app, scanVisits_length. lia.
Qed.

Lemma folderEntries_paths : forall f acc d,
  map entryPath (folderEntries f acc d) = map path (scanVisits f).
Proof.
  fix IH 1. intros [n p t [s|]] acc d; [|reflexivity].
  cbn [folderEntries scanVisits map entryPath path].
  f_equal. destruct (0 <? length s) eqn:E.
  - clear E. revert s. fix IH2 1. intros [|g r]; [reflexivity|].
    cbn [map concat]. rewrite !map_app, IH, IH2. reflexivity.
  - destruct s; [reflexivity|discriminate].
Qed.

(** [getAllFolders] lists the folders of every account in the depth-first
    order the recursive scan visits them, [countFoldersRecursive] of each
    account's folders in all. *)
Theorem getAllFolders_scan_order (accounts : list Account) :
  map entryPath (getAllFolders accounts) =
    map path (concat (map (fun account => concat (map scanVisits (folders account))) accounts)) /\
  length (getAllFolders accounts) =
    fold_right (fun account n => countFoldersRecursive (folders account) + n) 0 accounts.
Proof.
  unfold getAllFolders, addFolders.
  assert (Hp : forall fs acc, map entryPath (concat (map (fun f => folderEntries f acc 0) fs)) =
                              map path (concat (map scanVisits fs))).
  { induction fs as [|f r IH]; intros acc; [reflexivity|].
    cbn [map concat]. rewrite !map_app, folderEntries_paths, IH. reflexivity. }
  split.
  - induction accounts as [|a r IH]; [reflexivity|].
    cbn [map concat]. rewrite !map_app, Hp, IH. reflexivity.
  - induction accounts as [|a r IH]; [reflexivity|].
    cbn [map concat fold_right]. rewrite length_app, IH, countFoldersRecursive_visits.
    f_equal. rewrite <- (length_map entryPath), Hp, length_map. reflexivity.
Qed.

Lemma countFolders_visits (fs : list Folder) :
  countFolders fs skipTypes =
  length (concat (map scanVisits (filter (fun folder => negb (includesStr skipTypes (type folder))) fs))).
Proof.
  induction fs as [|f r IH]; [reflexivity|].
  cbn [countFolders filter]. destruct (negb (includesStr skipTypes (type f))).
  - cbn [map concat]. rewrite length_app, scanVisits_length, IH. lia.
  - rewrite IH. lia.
Qed.

Lemma index_fold (fs : list Folder) (n : nat) :
  fold_left (fun n folder => if negb (includesStr skipTypes (type folder)) then S n else n) fs n =
  n + length (filter (fun folder => negb (includesStr skipTypes (type folder))) fs).
Proof.
  revert n. induction fs as [|f r IH]; intros n; cbn [fold_left filter length]; [lia|].
  destruct (negb (includesStr skipTypes (type f))); cbn [length]; rewrite IH; lia.
Qed.

Lemma length_filter_le_visits (fs : list Folder) (p : Folder -> bool) :
  length (filter p fs) <= length (concat (map scanVisits (filter p fs))).
Proof.
  induction (filter p fs) as [|f r IH]; [reflexivity|].
  cbn [map concat length]. rewrite length_app. rewrite scanVisits_length. lia.
Qed.

(** In [scanAllAccountsWithML], [totalFolders] is the number of folders the
    scan visits, and [currentFolderIndex] never exceeds it. *)
Theorem scan_progress_counts (accounts : list Account) :
  totalFolders accounts = length (scannedFolders accounts) /\
  currentFolderIndex accounts <= totalFolders accounts.
Proof.
  unfold totalFolders, currentFolderIndex, scannedFolders.
  assert (G : forall n k, n <= k ->
     fold_left (fun n account =>
       fold_left (fun n folder => if negb (includesStr skipTypes (type folder)) then S n else n)
         (folders account) n) accounts n
     <= fold_left (fun n account => n + countFolders (folders account) skipTypes) accounts k /\
     fold_left (fun n account => n + countFolders (folders account) skipTypes) accounts k =
     k + length (concat (map (fun account =>
        concat (map scanVisits (filter (fun folder => negb (includesStr skipTypes (type folder)))
                                     (folders account)))) accounts))).
  { induction accounts as [|a r IH]; intros n k Hnk; cbn [fold_left map concat length]; [split; [exact Hnk|lia]|].
    rewrite index_fold.
    destruct (IH (n + length (filter (fun folder => negb (includesStr skipTypes (type folder))) (folders a)))
                 (k + countFolders (folders a) skipTypes)) as [H1 H2].
    - rewrite countFolders_visits. pose proof (length_filter_le_visits (folders a)
        (fun folder => negb (includesStr skipTypes (type folder)))). lia.
    - split; [exact H1|]. rewrite H2, length_app, countFolders_visits. lia. }
  destruct (G 0 0 (le_n 0)) as [H1 H2]. split; [rewrite H2; reflexivity|exact H1].
Qed.

Lemma collectPage_prefix (bodyOf : Message -> string) (label : Label) (messages : list Message) :
  forall count maxSamples, count <= maxSamples ->
  collectPage bodyOf label messages count maxSamples =
  (firstn (maxSamples - count) (map (sampleOf bodyOf label) messages),
   count + Nat.min (maxSamples - count) (length messages)).
Proof.
  induction messages as [|message r IH]; intros count maxSamples H; cbn [collectPage].
  - rewrite firstn_nil. cbn [length]. f_equal. lia.
  - destruct (maxSamples <=? count) eqn:E.
    + apply Nat.leb_le in E. replace (maxSamples - count) with 0 by lia. cbn [firstn Nat.min]. f_equal. lia.
    + apply Nat.leb_gt in E. rewrite (IH (S count) maxSamples) by lia.
      replace (maxSamples - count) with (S (maxSamples - S count)) by lia.
      cbn [map firstn length]. f_equal. lia.
Qed.

Lemma collectPages_prefix (bodyOf : Message -> string) (label : Label) (pages : list (list Message)) :
  forall count maxSamples, count <= maxSamples ->
  collectPages bodyOf label pages count maxSamples =
  firstn (maxSamples - count) (map (sampleOf bodyOf label) (concat pages)).
Proof.
  induction pages as [|page rest IH]; intros count maxSamples H; cbn [collectPages concat].
  - rewrite firstn_nil. reflexivity.
  - destruct (count <? maxSamples) eqn:E.
    + apply Nat.ltb_lt in E. rewrite collectPage_prefix by lia.
      rewrite map_app, firstn_app, length_map.
      f_equal. destruct rest as [|page' rest'].
      * cbn [concat map]. rewrite firstn_nil. reflexivity.
      * destruct (count + Nat.min (maxSamples - count) (length page) <? maxSamples) eqn:E2.
        -- apply Nat.ltb_lt in E2. rewrite IH by lia. f_equal. lia.
        -- apply Nat.ltb_ge in E2. replace (maxSamples - count - length page) with 0 by lia.
           reflexivity.
    + apply Nat.ltb_ge in E. replace (maxSamples - count) with 0 by lia. reflexivity.
Qed.

Lemma collectFromFolders_bound (bodyOf : Message -> string) (pagesOf : Folder -> list (list Message))
    (lbl : Label) (folders : list Folder) :
  forall perFolder target acc, length acc <= target ->
  length (collectFromFolders bodyOf pagesOf lbl folders perFolder target acc) <= target /\
  (forall i, In i (collectFromFolders bodyOf pagesOf lbl folders perFolder target acc) ->
             In i acc \/ label i = lbl).
Proof.
  induction folders as [|folder r IH]; intros perFolder target acc H; cbn [collectFromFolders].
  - split; [exact H|]. intros i Hi. left; exact Hi.
  - destruct (target <=? length acc) eqn:E.
    + split; [exact H|]. intros i Hi. left; exact Hi.
    + apply Nat.leb_gt in E. unfold collectTrainingDataFromFolder.
      rewrite collectPages_prefix by lia. rewrite Nat.sub_0_r.
      destruct (IH perFolder target
                 (acc ++ firstn (Nat.min perFolder (target - length acc))
                               (map (sampleOf bodyOf lbl) (concat (pagesOf folder))))) as [H1 H2].
      { rewrite length_app, length_firstn. lia. }
      split; [exact H1|]. intros i Hi. destruct (H2 i Hi) as [Hi'|Hi']; [|right; exact Hi'].
      apply in_app_or in Hi' as [Hi'|Hi']; [left; exact Hi'|right].
      apply in_firstn_in in Hi'. apply in_map_iff in Hi' as [message [<- _]]. reflexivity.
Qed.

(** [collectTrainingDataFromFolder] returns the samples of the first
    [maxSamples] messages of the folder, across pages. *)
Theorem collectTrainingData_prefix (bodyOf : Message -> string) (pagesOf : Folder -> list (list Message))
    (folder : Folder) (lbl : Label) (maxSamples : nat) :
  collectTrainingDataFromFolder bodyOf pagesOf folder lbl maxSamples =
  firstn maxSamples (map (sampleOf bodyOf lbl) (concat (pagesOf folder))).
Proof.
  unfold collectTrainingDataFromFolder. rewrite collectPages_prefix by lia.
  rewrite Nat.sub_0_r. reflexivity.
Qed.

(** [trainFromMailboxFolders] collects at most [maxPerClass] spam samples and
    at most as many ham samples as spam samples, each with its class label. *)
Theorem collectSamples_quota (bodyOf : Message -> string) (pagesOf : Folder -> list (list Message))
    (maxTrainingSamples : nat) (spamFolders inboxFolders : list Folder) :
  let samples := collectSamples bodyOf pagesOf maxTrainingSamples spamFolders inboxFolders in
  length (snd samples) <= length (fst samples) <= maxPerClassOf maxTrainingSamples /\
  Forall (fun i => label i = Spam) (fst samples) /\ Forall (fun i => label i = Ham) (snd samples).
Proof.
  intros samples. subst samples. unfold collectSamples. cbn [fst snd].
  set (spamSamples := collectFromFolders bodyOf pagesOf Spam spamFolders _ _ []).
  destruct (collectFromFolders_bound bodyOf pagesOf Spam spamFolders
              (ceil_div (maxPerClassOf maxTrainingSamples) (Nat.max (length spamFolders) 1))
              (maxPerClassOf maxTrainingSamples) [] (Nat.le_0_l _)) as [S1 S2].
  destruct (collectFromFolders_bound bodyOf pagesOf Ham inboxFolders
              (ceil_div (length spamSamples) (Nat.max (length inboxFolders) 1))
              (length spamSamples) [] (Nat.le_0_l _)) as [H1 H2].
  split; [split; assumption|]. split; apply Forall_forall.
  - intros i Hi. destruct (S2 i Hi) as [[]|Hl]; exact Hl.
  - intros i Hi. destruct (H2 i Hi) as [[]|Hl]; exact Hl.
Qed.

Lemma searchFolder_first : forall (spamNames : list string) (folder : Folder),
  searchFolder spamNames folder = hd_error (collectSpamFolders spamNames folder).
Proof.
  intros spamNames. fix IH 1. intros [n p t subs].
  cbn [searchFolder collectSpamFolders].
  destruct (isSpamFolder spamNames (mkFolder n p t subs)); [reflexivity|].
  cbn [app]. destruct subs as [subs|]; [|reflexivity].
  destruct (0 <? length subs); [|reflexivity].
  induction subs as [|f r IHr]; [reflexivity|].
  rewrite IH. destruct (collectSpamFolders spamNames f) as [|x l]; [exact IHr|reflexivity].
Qed.

Lemma searchFolders_first (spamNames : list string) (fs : list Folder) :
  searchFolders spamNames fs = hd_error (concat (map (collectSpamFolders spamNames) fs)).
Proof.
  induction fs as [|f r IH]; [reflexivity|].
  cbn [searchFolders map concat]. rewrite searchFolder_first.
  destruct (collectSpamFolders spamNames f); [exact IH|reflexivity].
Qed.

Lemma collectSpamFolders_match : forall (spamNames : list string) (folder x : Folder),
  In x (collectSpamFolders spamNames folder) -> isSpamFolder spamNames x = true.
Proof.
  intros spamNames. fix IH 1. intros [n p t subs] x Hx.
  cbn [collectSpamFolders] in Hx. apply in_app_or in Hx as [Hx|Hx].
  - destruct (isSpamFolder spamNames (mkFolder n p t subs)) eqn:E; [|destruct Hx].
    destruct Hx as [<-|[]]; exact E.
  - destruct subs as [subs|]; [|destruct Hx].
    destruct (0 <? length subs); [|destruct Hx].
    revert Hx. revert subs. fix IH2 1. intros [|f r] Hx; [destruct Hx|].
    apply in_app_or in Hx as [Hx|Hx]; [exact (IH f x Hx)|exact (IH2 r Hx)].
Qed.

(** With [targetFolderPath] "Bulk", the folder [findSpamFolder] moves spam
    to is the first folder [findSpamFolders] trains spam on, and each of
    those folders passes the spam-folder test. *)
Theorem findSpamFolder_first_training_folder (targetFolderPath accountName : string) (fs : list Folder) :
  toLowerCase targetFolderPath = "bulk" ->
  findSpamFolder targetFolderPath None (Some fs) = hd_error (findSpamFolders [mkAccount accountName fs]) /\
  forall x, In x (findSpamFolders [mkAccount accountName fs]) -> isSpamFolder ["spam"; "junk"; "bulk"] x = true.
Proof.
  intros H. unfold findSpamFolder, findSpamFolders. rewrite H.
  cbn [map concat folders]. rewrite app_nil_r. split; [apply searchFolders_first|].
  intros x Hx. apply in_concat in Hx as [l [Hl Hx]]. apply in_map_iff in Hl as [f [<- _]].
  exact (collectSpamFolders_match _ f x Hx).
Qed.

Lemma strIncludes_empty (h : string) : strIncludes h "" = true.
Proof. unfold strIncludes. destruct h; reflexivity. Qed.

(** With an empty [targetFolderPath] and no configured folder,
    [findSpamFolder] returns the account's first folder: every path
    includes the empty name. *)
Theorem findSpamFolder_empty_target (f : Folder) (r : list Folder) :
  findSpamFolder "" None (Some (f :: r)) = Some f.
Proof.
  unfold findSpamFolder. cbn [toLowerCase searchFolders].
  destruct f as [n p t subs]. cbn [searchFolder].
  assert (H : isSpamFolder ["spam"; "junk"; ""] (mkFolder n p t subs) = true).
  { unfold isSpamFolder. cbn [existsb]. rewrite strIncludes_empty.
    rewrite !orb_true_r. reflexivity. }
  rewrite H. reflexivity.
Qed.

Lemma findSpamFolder_first_training_folder_witness :
  toLowerCase "Bulk" = "bulk" /\
  findSpamFolder "Bulk" None
    (Some [mkFolder "Inbox" "/INBOX" "inbox" (Some [mkFolder "Bulk" "/INBOX/Bulk" "" None])]) =
  hd_error (findSpamFolders [mkAccount "me"
    [mkFolder "Inbox" "/INBOX" "inbox" (Some [mkFolder "Bulk" "/INBOX/Bulk" "" None])]]) /\
  forall x, In x (findSpamFolders [mkAccount "me"
    [mkFolder "Inbox" "/INBOX" "inbox" (Some [mkFolder "Bulk" "/INBOX/Bulk" "" None])]]) ->
    isSpamFolder ["spam"; "junk"; "bulk"] x = true.
Proof.
  assert (H : toLowerCase "Bulk" = "bulk") by reflexivity.
  split; [exact H|].
  exact (findSpamFolder_first_training_folder "Bulk" "me"
           [mkFolder "Inbox" "/INBOX" "inbox" (Some [mkFolder "Bulk" "/INBOX/Bulk" "" None])] H).
Defined.

Lemma addTrainingData_persisted_witness :
  alpha (classifier (mkBg [] fresh None)) = 1%R /\ minDf (classifier (mkBg [] fresh None)) = 2 /\
  let st' := addTrainingData (mkBg [] fresh None) sampleMessage in
  isTrained (classifier st') = true /\
  trainingData st' = trainingData (mkBg [] fresh None) ++ [newSample sampleMessage] /\
  totalDocuments (classifier st') = S (length (trainingData (mkBg [] fresh None))) /\
  loadStoredModel (storedModel st') = Some (classifier st').
Proof.
  split; [reflexivity|]. split; [reflexivity|].
  apply (addTrainingData_persisted (mkBg [] fresh None) sampleMessage); reflexivity.
Defined.

Lemma retrain_empty_list_witness :
  isTrained (classifier (mkBg corpusA (train fresh corpusA) None)) = true /\
  let m := classifier (retrainClassifier (mkBg corpusA (train fresh corpusA) None) (Some [])) in
  isTrained m = true /\ vocabulary m = [] /\
  predict m (InText "prize") = mkPrediction "ham" (1/2)%R [("spam", (1/2)%R); ("ham", (1/2)%R)].
Proof.
  split; [reflexivity|].
  apply (retrain_empty_list (mkBg corpusA (train fresh corpusA) None) (InText "prize")).
  reflexivity.
Defined.

Lemma checkAndMove_failed_move_witness :
  enabled sampleSettings = true /\ hasSpamHeader (headers (junkEnv false)) = true /\
  spamFolderPath (junkEnv false) = Some "Junk" /\ "Junk" <> folderPath inboxMessage /\
  moveResolves (junkEnv false) = false /\
  checkAndMoveMessage (fun _ => "") sampleSettings (train fresh corpusA) (mkStats 3 1) (junkEnv false)
    inboxMessage false = (NotSpam, mkStats 4 1).
Proof.
  assert (Hh : hasSpamHeader (headers (junkEnv false)) = true) by (vm_compute; reflexivity).
  assert (Hn : "Junk" <> folderPath inboxMessage) by discriminate.
  split; [reflexivity|]. split; [exact Hh|]. split; [reflexivity|]. split; [exact Hn|].
  split; [reflexivity|].
  exact (checkAndMove_failed_move (fun _ => "") sampleSettings (train fresh corpusA) (mkStats 3 1)
           (junkEnv false) inboxMessage "Junk" eq_refl Hh eq_refl Hn eq_refl).
Defined.

Lemma checkAndMove_ml_verdict_witness :
  hasSpamHeader (headers cleanEnv) = false /\ moveResolves cleanEnv = true /\
  ((exists top, fst (checkAndMoveMessage (fun _ => "") sampleSettings (train fresh corpusA)
                       (mkStats 0 0) cleanEnv inboxMessage true) = MLSpam (9/10) top) <->
   (enabled sampleSettings && useMLClassifier sampleSettings && isTrained (train fresh corpusA) = true /\
    scoreOf "spam" (predict (train fresh corpusA) (InEmail (messageEmailData inboxMessage (bodyText cleanEnv))))
      = Some (9/10)%R /\
    (1/2 < 9/10)%R /\ (mlThreshold sampleSettings <= 9/10)%R)).
Proof.
  assert (Hh : hasSpamHeader (headers cleanEnv) = false) by (vm_compute; reflexivity).
  split; [exact Hh|]. split; [reflexivity|].
  exact (checkAndMove_ml_verdict (fun _ => "") sampleSettings (train fresh corpusA) (mkStats 0 0)
           cleanEnv inboxMessage true (9/10)%R Hh eq_refl).
Defined.
